(** * validateoptions: a shallow embedding of src/validateoptions.js

    JavaScript values are modelled with an explicit heap: primitives are
    values, objects, arrays, functions and regexps live in heap cells and are
    reached through references.  A plain object is the list of its own
    properties in enumeration order; members inherited from
    [Object.prototype] are not modelled (as for an object created with
    [Object.create(null)]).  Places where the JavaScript semantics is not
    covered by the model raise [Unmodelled], so that no theorem about a run
    that returns normally depends on them. *)

From Stdlib Require Import String Ascii List ZArith Bool Lia.
Import ListNotations.
Open Scope string_scope.

(** ** Values and the heap *)

Definition loc := nat.

Inductive jsval : Type :=
| JUndef
| JNull
| JBool (b : bool)
| JNum (n : Z)
| JBigInt (n : Z)
| JStr (s : string)
| JSym (id : nat)
| JRef (l : loc).

Inductive cell : Type :=
| CObj (props : list (string * jsval))
| CArr (elems : list jsval)
| CFun (id : nat)
| CRegExp.

Definition heap := list cell.

(** Thrown values.  [RequirementError] is an instance of the module's
    [RequirementError] (the ValidationFailure of the spec); [InternalError]
    the plain [Error] of the vocabulary check; [UserError] anything else a
    caller-supplied function throws. *)
Inductive exn : Type :=
| RequirementError (key : string) (message : jsval)
| InternalError (type : jsval)
| TypeError (what : string)
| UserError (payload : jsval)
| Unmodelled (what : string).

Inductive res (A : Type) : Type :=
| Ok (a : A)
| Throw (e : exn).
Arguments Ok {A} a.
Arguments Throw {A} e.

Definition res_bind {A B} (r : res A) (k : A -> res B) : res B :=
  match r with Ok a => k a | Throw e => Throw e end.

Notation "x <-? r ;; k" := (res_bind r (fun x => k))
  (at level 61, r at next level, right associativity).

(** A state and exception monad: the state is the trace of calls of
    caller-supplied functions during validation, and the heap for the
    combinators. *)
Definition ST (S A : Type) := S -> S * res A.

Definition ret {S A} (a : A) : ST S A := fun s => (s, Ok a).
Definition throw {S A} (e : exn) : ST S A := fun s => (s, Throw e).
Definition lift {S A} (r : res A) : ST S A := fun s => (s, r).
Definition bind {S A B} (m : ST S A) (k : A -> ST S B) : ST S B :=
  fun s => match m s with
           | (s', Ok a) => k a s'
           | (s', Throw e) => (s', Throw e)
           end.
Definition try_catch {S A} (m : ST S A) (handler : exn -> ST S A) : ST S A :=
  fun s => match m s with
           | (s', Throw e) => handler e s'
           | r => r
           end.

Notation "x <- m ;; k" := (bind m (fun x => k))
  (at level 61, m at next level, right associativity).
Notation "' p <- m ;; k" := (bind m (fun x => match x with p => k end))
  (at level 61, p pattern, m at next level, right associativity).

(** ** Primitive operations of the language *)

Fixpoint assoc (k : string) (ps : list (string * jsval)) : option jsval :=
  match ps with
  | [] => None
  | (k', v) :: ps' => if String.eqb k k' then Some v else assoc k ps'
  end.

(** [o[k] = v] on a plain object: overwrite in place or append. *)
Fixpoint obj_set (k : string) (v : jsval) (ps : list (string * jsval))
  : list (string * jsval) :=
  match ps with
  | [] => [(k, v)]
  | (k', v') :: ps' =>
      if String.eqb k k' then (k', v) :: ps' else (k', v') :: obj_set k v ps'
  end.

(** ToBoolean.  Numbers are integers here, so NaN does not occur. *)
Definition truthy (v : jsval) : bool :=
  match v with
  | JUndef | JNull => false
  | JBool b => b
  | JNum n | JBigInt n => negb (Z.eqb n 0)
  | JStr s => negb (String.eqb s EmptyString)
  | JSym _ | JRef _ => true
  end.

(** [===] *)
Definition strict_eq (a b : jsval) : bool :=
  match a, b with
  | JUndef, JUndef | JNull, JNull => true
  | JBool x, JBool y => Bool.eqb x y
  | JNum x, JNum y | JBigInt x, JBigInt y => Z.eqb x y
  | JStr x, JStr y => String.eqb x y
  | JSym x, JSym y | JRef x, JRef y => Nat.eqb x y
  | _, _ => false
  end.

Definition is_undefined (v : jsval) : bool :=
  match v with JUndef => true | _ => false end.

(** [v == null] *)
Definition is_nullish (v : jsval) : bool :=
  match v with JUndef | JNull => true | _ => false end.

(** [Array.prototype.indexOf] *)
Fixpoint indexOf (l : list jsval) (x : jsval) : Z :=
  match l with
  | [] => -1
  | y :: l' => if strict_eq y x then 0 else
               let i := indexOf l' x in if Z.ltb i 0 then -1 else i + 1
  end.

Definition array_elems (h : heap) (v : jsval) : option (list jsval) :=
  match v with
  | JRef l => match nth_error h l with Some (CArr xs) => Some xs | _ => None end
  | _ => None
  end.

(** [Array.isArray] *)
Definition isArray (h : heap) (v : jsval) : bool :=
  match array_elems h v with Some _ => true | None => false end.

(** [typeof] *)
Definition typeof (h : heap) (v : jsval) : string :=
  match v with
  | JUndef => "undefined"
  | JNull => "object"
  | JBool _ => "boolean"
  | JNum _ => "number"
  | JBigInt _ => "bigint"
  | JStr _ => "string"
  | JSym _ => "symbol"
  | JRef l => match nth_error h l with Some (CFun _) => "function" | _ => "object" end
  end.

(** [v[name]].  Only the properties of plain objects are modelled; the
    names the module reads on primitives ([is], [map], [ok], [msg],
    [dflt]) are members of none of the primitive prototypes. *)
Definition get_prop (h : heap) (v : jsval) (name : string) : res jsval :=
  match v with
  | JUndef | JNull => Throw (TypeError "Cannot read properties of undefined or null")
  | JRef l =>
      match nth_error h l with
      | Some (CObj ps) => Ok (match assoc name ps with Some x => x | None => JUndef end)
      | Some _ => Throw (Unmodelled "properties of arrays, functions and regexps")
      | None => Throw (Unmodelled "dangling reference")
      end
  | _ => Ok JUndef
  end.

(** [name in v] *)
Definition has_prop (h : heap) (v : jsval) (name : string) : res bool :=
  match v with
  | JRef l =>
      match nth_error h l with
      | Some (CObj ps) => Ok (match assoc name ps with Some _ => true | None => false end)
      | _ => Throw (Unmodelled "'in' on arrays, functions and regexps")
      end
  | _ => Throw (TypeError "Cannot use 'in' operator to search in a primitive")
  end.

(** Calling the method [name] of [v] when [v] is not an array: the method
    is missing (TypeError) unless a plain object carries it itself. *)
Definition method_missing {A} (h : heap) (v : jsval) (name : string) : res A :=
  match v with
  | JRef l =>
      match nth_error h l with
      | Some (CObj ps) =>
          match assoc name ps with
          | Some _ => Throw (Unmodelled "own array-method property")
          | None => Throw (TypeError (name ++ " is not a function"))
          end
      | _ => Throw (TypeError (name ++ " is not a function"))
      end
  | _ => Throw (TypeError (name ++ " is not a function"))
  end.

(** The elements of an array receiver, for [v.filter], [v.join], ... *)
Definition array_receiver (h : heap) (v : jsval) (name : string) : res (list jsval) :=
  match array_elems h v with
  | Some xs => Ok xs
  | None => method_missing h v name
  end.

(** [Array.prototype.join(sep)]; only strings, [undefined] and [null] are
    converted (the module joins checked type names only). *)
Definition elem_string (v : jsval) : res string :=
  match v with
  | JStr s => Ok s
  | JUndef | JNull => Ok EmptyString
  | _ => Throw (Unmodelled "ToString of a non-string array element")
  end.

Fixpoint join (sep : string) (xs : list jsval) : res string :=
  match xs with
  | [] => Ok EmptyString
  | [x] => elem_string x
  | x :: xs' => s <-? elem_string x ;; r <-? join sep xs' ;; Ok (s ++ sep ++ r)
  end.

Definition dq : string := String (ascii_of_nat 34) EmptyString.

(** ** Module constants *)

(** The possible return values of getTypeOf. *)
Definition VALID_TYPES : list string :=
  ["array"; "boolean"; "function"; "null"; "number"; "object"; "regexp";
   "string"; "symbol"; "undefined"].

(** [getTypeOf]: like typeof, but arrays, null and regexps are identified
    by "array", "null" and "regexp". *)
Definition getTypeOf (h : heap) (value : jsval) : string :=
  let type := typeof h value in
  if String.eqb type "object" then
    if negb (truthy value) then "null"
    else if isArray h value then "array"
    else match value with
         | JRef l => match nth_error h l with Some CRegExp => "regexp" | _ => type end
         | _ => type
         end
  else type.

(** ** validateOptions *)

(** The observable calls of caller-supplied functions. *)
Inductive event : Type :=
| CalledMap (key : string) (arg : jsval)
| CalledOk (key : string) (arg : jsval).

Definition trace := list event.
Definition M (A : Type) := ST trace A.

(** [new RequirementError(key, requirement)]: building the message may
    itself throw, when [requirement.is] has no [join] method. *)
Definition new_RequirementError (h : heap) (key : string) (requirement : jsval)
  : res exn :=
  msg <-? get_prop h requirement "msg" ;;
  if truthy msg then Ok (RequirementError key msg)
  else
    let prefix := "The option " ++ dq ++ key ++ dq ++ " " in
    is <-? get_prop h requirement "is" ;;
    if truthy is then
      types <-? array_receiver h is "join" ;;
      s <-? join ", " types ;;
      Ok (RequirementError key (JStr (prefix ++ "must be one of the following types: " ++ s)))
    else Ok (RequirementError key (JStr (prefix ++ "is invalid."))).

Section Validate.

(** The behaviour of the caller-supplied functions ([map] and [ok]),
    indexed by the identity of their function cell.  They do not touch the
    heap. *)
Variable call : nat -> jsval -> res jsval.

(** [f(v)] *)
Definition call_js (h : heap) (f v : jsval) : res jsval :=
  match f with
  | JRef l => match nth_error h l with
              | Some (CFun id) => call id v
              | _ => Throw (TypeError "is not a function")
              end
  | _ => Throw (TypeError "is not a function")
  end.

(** [f(v)], recording the call when [f] is a function. *)
Definition call_fn (h : heap) (ev : jsval -> event) (f v : jsval) : M jsval :=
  fun tr =>
    match f with
    | JRef l => match nth_error h l with
                | Some (CFun _) => ((tr ++ [ev v])%list, call_js h f v)
                | _ => (tr, call_js h f v)
                end
    | _ => (tr, call_js h f v)
    end.

(** [key in (options || {})]: a falsy [options] is replaced by a fresh
    empty object. *)
Definition in_options (h : heap) (options : jsval) (key : string) : res bool :=
  if truthy options then has_prop h options key else Ok false.

(** Lines 64-70: presence and default. *)
Definition presence (h : heap) (options : jsval) (key : string) (req : jsval)
  : res (bool * jsval) :=
  keyInOpts <-? in_options h options key ;;
  optsVal <-? (if keyInOpts then get_prop h options key else Ok JUndef) ;;
  hasDflt <-? has_prop h req "dflt" ;;
  if hasDflt && is_undefined optsVal then
    dflt <-? get_prop h req "dflt" ;; Ok (true, dflt)
  else Ok (keyInOpts, optsVal).

(** Lines 72-82: the transform; returns the value and [mapThrew].  Only a
    [RequirementError] is rethrown; [Unmodelled] is not a JavaScript error
    and is passed on as well. *)
Definition apply_map (h : heap) (key : string) (req : jsval) (optsVal : jsval)
  : M (jsval * bool) :=
  map <- lift (get_prop h req "map") ;;
  if truthy map then
    try_catch
      (v <- call_fn h (CalledMap key) map optsVal ;; ret (v, false))
      (fun err => match err with
                  | RequirementError _ _ | Unmodelled _ => throw err
                  | _ => ret (optsVal, true)
                  end)
  else ret (optsVal, false).

(** Lines 95-99: the sanity check of the caller's type names. *)
(** The [throw new Error(...)] of line 97 for the unrecognised tag [type].
    The message is built first, by the template literal
    [`Internal error: invalid requirement type "${type}".`]: converting a
    Symbol to a string raises a TypeError, and converting an object calls
    its [toString] (not modelled); any other primitive converts. *)
Definition invalid_tag_error (type : jsval) : exn :=
  match type with
  | JSym _ => TypeError "Cannot convert a Symbol value to a string"
  | JRef _ => Unmodelled "string conversion of an object tag"
  | _ => InternalError type
  end.

Fixpoint check_type_names (types : list jsval) : res unit :=
  match types with
  | [] => Ok tt
  | type :: rest =>
      if Z.eqb (indexOf (map JStr VALID_TYPES) type) (-1)
      then Throw (invalid_tag_error type)
      else check_type_names rest
  end.

(** Lines 84-105: the type check; returns [isOptional]. *)
Definition check_types (h : heap) (key : string) (req : jsval) (optsVal : jsval)
  : res bool :=
  is <-? get_prop h req "is" ;;
  if truthy is then
    types <-? (if negb (isArray h is)
               then inner <-? get_prop h is "is" ;;
                    Ok (if isArray h inner then inner else is)
               else Ok is) ;;
    match array_elems h types with
    | Some ts =>
        let isOptional :=
          forallb (fun v => negb (Z.eqb (indexOf ts (JStr v)) (-1))) ["undefined"; "null"] in
        _ <-? check_type_names ts ;;
        if Z.ltb (indexOf ts (JStr (getTypeOf h optsVal))) 0
        then e <-? new_RequirementError h key req ;; Throw e
        else Ok isOptional
    | None => Ok false
    end
  else Ok false.

(** Lines 107-109: the predicate. *)
Definition check_ok (h : heap) (key : string) (req : jsval) (isOptional : bool)
  (optsVal : jsval) : M unit :=
  ok <- lift (get_prop h req "ok") ;;
  if truthy ok && (negb isOptional || negb (is_nullish optsVal)) then
    r <- call_fn h (CalledOk key) ok optsVal ;;
    if negb (truthy r) then lift (e <-? new_RequirementError h key req ;; Throw e)
    else ret tt
  else ret tt.

(** Lines 111-113: inclusion in the result. *)
Definition include (h : heap) (key : string) (req : jsval) (keyInOpts mapThrew : bool)
  (optsVal : jsval) (validated : list (string * jsval))
  : res (list (string * jsval)) :=
  map <-? get_prop h req "map" ;;
  if keyInOpts || (truthy map && negb mapThrew && negb (is_undefined optsVal))
  then Ok (obj_set key optsVal validated)
  else Ok validated.

(** Lines 84-113: everything after the transform. *)
Definition after_map (h : heap) (key : string) (req : jsval) (keyInOpts : bool)
  (optsVal : jsval) (mapThrew : bool) (validated : list (string * jsval))
  : M (list (string * jsval)) :=
  isOptional <- lift (check_types h key req optsVal) ;;
  _ <- check_ok h key req isOptional optsVal ;;
  lift (include h key req keyInOpts mapThrew optsVal validated).

(** The body of the loop, lines 60-113. *)
Definition validate_key (h : heap) (options : jsval) (key : string) (req : jsval)
  (validated : list (string * jsval)) : M (list (string * jsval)) :=
  '(keyInOpts, optsVal) <- lift (presence h options key req) ;;
  '(optsVal', mapThrew) <- apply_map h key req optsVal ;;
  after_map h key req keyInOpts optsVal' mapThrew validated.

Fixpoint validate_all (h : heap) (options : jsval) (reqs : list (string * jsval))
  (validated : list (string * jsval)) : M (list (string * jsval)) :=
  match reqs with
  | [] => ret validated
  | (key, req) :: rest =>
      validated' <- validate_key h options key req validated ;;
      validate_all h options rest validated'
  end.

(** [for (const key in requirements)], with [requirements[key]]. *)
Definition requirement_entries (h : heap) (requirements : jsval)
  : res (list (string * jsval)) :=
  match requirements with
  | JUndef | JNull | JBool _ | JNum _ | JBigInt _ | JSym _ => Ok []
  | JStr s => if String.eqb s EmptyString then Ok []
              else Throw (Unmodelled "for-in over a string")
  | JRef l => match nth_error h l with
              | Some (CObj ps) => Ok ps
              | _ => Throw (Unmodelled "for-in over arrays, functions and regexps")
              end
  end.

(** [validateOptions(options, requirements)]: returns the own properties
    of the fresh result object. *)
Definition validateOptions (h : heap) (options requirements : jsval)
  : M (list (string * jsval)) :=
  reqs <- lift (requirement_entries h requirements) ;;
  validate_all h options reqs [].

End Validate.

(** ** The requirement combinators *)

(** The combinators run in the heap.  Arrays and objects that the code
    stores in another object or returns, or reads back through a reference,
    are allocated; short-lived temporaries are Rocq values. *)
Definition HM (A : Type) := ST heap A.

Definition alloc (c : cell) : HM loc := fun h => ((h ++ [c])%list, Ok (length h)).

Definition get_heap : HM heap := fun h => (h, Ok h).

Fixpoint set_nth (l : nat) (c : cell) (h : heap) : heap :=
  match h, l with
  | [], _ => []
  | _ :: h', O => c :: h'
  | x :: h', S l' => x :: set_nth l' c h'
  end.

(** [o[name] = v] for a plain object [o]. *)
Definition set_prop (o : loc) (name : string) (v : jsval) : HM unit :=
  fun h => match nth_error h o with
           | Some (CObj ps) => (set_nth o (CObj (obj_set name v ps)) h, Ok tt)
           | _ => (h, Throw (Unmodelled "assignment to a non-plain object"))
           end.

(** [findTypes]: [while (!Array.isArray(v) && v.is) v = v.is; return v;].
    A chain of more references than the heap has cells repeats one, and the
    loop then runs forever: running out of fuel is that divergence. *)
Fixpoint findTypes_fuel (fuel : nat) (h : heap) (v : jsval) : res jsval :=
  match fuel with
  | O => Throw (Unmodelled "non-terminating findTypes")
  | S fuel' =>
      if isArray h v then Ok v
      else is <-? get_prop h v "is" ;;
           if truthy is then findTypes_fuel fuel' h is else Ok v
  end.

Definition findTypes (h : heap) (v : jsval) : res jsval :=
  findTypes_fuel (S (length h)) h v.

Definition isTruthyType (type : jsval) : bool :=
  negb (strict_eq type (JStr "undefined") || strict_eq type (JStr "null")).

(** The own string-keyed properties of a truthy argument of [merge]
    (symbol-keyed properties are not modelled). *)
Definition own_props (h : heap) (v : jsval) : res (list (string * jsval)) :=
  match v with
  | JRef l => match nth_error h l with
              | Some (CObj ps) => Ok ps
              | _ => Throw (Unmodelled "own properties of arrays, functions and regexps")
              end
  | JStr _ => Throw (Unmodelled "own properties of a string")
  | _ => Ok []
  end.

Definition put_all (ps acc : list (string * jsval)) : list (string * jsval) :=
  fold_left (fun a '(n, v) => obj_set n v a) ps acc.

(** The [descriptor] map of [merge]: later arguments override earlier
    ones; falsy arguments are skipped. *)
Fixpoint merge_descriptor (h : heap) (properties : list jsval)
  (descriptor : list (string * jsval)) : res (list (string * jsval)) :=
  match properties with
  | [] => Ok descriptor
  | props :: rest =>
      if truthy props then
        own <-? own_props h props ;;
        merge_descriptor h rest (put_all own descriptor)
      else merge_descriptor h rest descriptor
  end.

(** [merge(source, ...properties)] for a plain object [source]. *)
Definition merge (source : loc) (properties : list jsval) : HM jsval :=
  h <- get_heap ;;
  descriptor <- lift (merge_descriptor h properties []) ;;
  fun h' => match nth_error h' source with
            | Some (CObj ps) =>
                (set_nth source (CObj (put_all descriptor ps)) h', Ok (JRef source))
            | _ => (h', Throw (Unmodelled "defineProperties on a non-plain object"))
            end.

Definition required (req : jsval) : HM jsval :=
  h <- get_heap ;;
  found <- lift (findTypes h req) ;;
  base <- lift (if truthy found then array_receiver h found "filter"
                else Ok (map JStr VALID_TYPES)) ;;
  types <- alloc (CArr (filter isTruthyType base)) ;;
  target <- alloc (CObj []) ;;
  props <- alloc (CObj [("is", JRef types)]) ;;
  merge target [req; JRef props].

Definition optional (req : jsval) : HM jsval :=
  empty <- alloc (CArr []) ;;
  target <- alloc (CObj [("is", JRef empty)]) ;;
  req' <- merge target [req] ;;
  h <- get_heap ;;
  found <- lift (findTypes h req') ;;
  ts <- lift (array_receiver h found "filter") ;;
  types <- alloc (CArr (filter isTruthyType ts ++ [JStr "undefined"; JStr "null"])) ;;
  _ <- set_prop target "is" (JRef types) ;;
  ret req'.

(** [this] of [Array.prototype.concat]. *)
Definition concat_this (h : heap) (v : jsval) : res (list jsval) :=
  match v with
  | JUndef | JNull => Throw (TypeError "Array.prototype.concat called on null or undefined")
  | JRef _ => Ok (match array_elems h v with Some xs => xs | None => [v] end)
  | _ => Throw (Unmodelled "concat on a boxed primitive")
  end.

(** [CreateListFromArrayLike], the argument list of [apply]. *)
Definition list_from_array_like (h : heap) (v : jsval) : res (list jsval) :=
  match v with
  | JUndef | JNull => Ok []
  | JRef _ => match array_elems h v with
              | Some xs => Ok xs
              | None => Throw (Unmodelled "array-like object")
              end
  | _ => Throw (TypeError "CreateListFromArrayLike called on non-object")
  end.

(** An argument of [concat]: arrays are spread, anything else appended. *)
Definition spread (h : heap) (x : jsval) : list jsval :=
  match array_elems h x with Some xs => xs | None => [x] end.

(** [[].concat.apply(...arrays)]: [apply] takes its first argument as
    [this] and its second as the argument list of [concat]; it has no
    further parameters. *)
Definition concat_apply (h : heap) (arrays : list jsval) : res (list jsval) :=
  let thisArg := match arrays with [] => JUndef | a :: _ => a end in
  let argArray := match arrays with _ :: a :: _ => a | _ => JUndef end in
  this <-? concat_this h thisArg ;;
  args <-? list_from_array_like h argArray ;;
  Ok (this ++ flat_map (spread h) args)%list.

(** The [reduce] of [union]. *)
Fixpoint union_reduce (result items : list jsval) : list jsval :=
  match items with
  | [] => result
  | item :: rest =>
      union_reduce (if Z.eqb (indexOf result item) (-1) then result ++ [item] else result) rest
  end.

Definition union (arrays : list jsval) : HM jsval :=
  h <- get_heap ;;
  combined <- lift (concat_apply h arrays) ;;
  result <- alloc (CArr (union_reduce [] combined)) ;;
  ret (JRef result).

Fixpoint map_res {A B} (f : A -> res B) (l : list A) : res (list B) :=
  match l with
  | [] => Ok []
  | x :: l' => y <-? f x ;; ys <-? map_res f l' ;; Ok (y :: ys)
  end.

Definition either (types : list jsval) : HM jsval :=
  h <- get_heap ;;
  arrays <- lift (map_res (findTypes h) types) ;;
  union arrays.

(** The accepted-type set of a requirement or tag array, resolved through
    [findTypes]. *)
Definition accepted_types (h : heap) (v : jsval) : option (list jsval) :=
  match findTypes h v with Ok t => array_elems h t | Throw _ => None end.

(** The tag array of a combinator's result lives in a cell allocated by the
    call: the result is that array, or a new object whose [is] is it. *)
Definition fresh_tags (h h' : heap) (v : jsval) : Prop :=
  (exists q xs, v = JRef q /\ length h <= q /\ nth_error h' q = Some (CArr xs)) \/
  (exists p ps q xs, v = JRef p /\ length h <= p /\ nth_error h' p = Some (CObj ps) /\
     assoc "is" ps = Some (JRef q) /\ length h <= q /\ nth_error h' q = Some (CArr xs)).

(** A run of a combinator from heap [h] leaves every cell of [h] as it
    was (it only appends cells) and, when it returns, returns a fresh tag
    array. *)
Definition preserves_and_fresh (h : heap) (step : heap * res jsval) : Prop :=
  let '(h', out) := step in
  (exists ext, h' = (h ++ ext)%list) /\
  match out with Ok v => fresh_tags h h' v | Throw _ => True end.

(** The inclusion condition of the Validated Result, in the words of the
    spec: the key is in [options] (after [options || {}]), or the
    requirement supplies a default, or it declares a transform that, called
    on the key's value, returns a defined value. *)
Definition included_by_spec (call : nat -> jsval -> res jsval) (h : heap)
  (options : jsval) (key : string) (req : jsval) : Prop :=
  in_options h options key = Ok true \/ has_prop h req "dflt" = Ok true \/
  (exists f b v0 v, get_prop h req "map" = Ok f /\ truthy f = true /\
     presence h options key req = Ok (b, v0) /\ call_js call h f v0 = Ok v /\ v <> JUndef).

(** The own property [n] of an argument of [merge], when it is a plain
    object that has one. *)
Definition own_value (h : heap) (x : jsval) (n : string) : option jsval :=
  match x with
  | JRef l => match nth_error h l with Some (CObj qs) => assoc n qs | _ => None end
  | _ => None
  end.

(** An argument of [merge] that is falsy, or a plain object (whose keys
    are distinct, as a JavaScript object's are). *)
Definition merge_arg (h : heap) (x : jsval) : Prop :=
  truthy x = false \/ exists l qs, x = JRef l /\ nth_error h l = Some (CObj qs) /\ NoDup (map fst qs).

(** ** Concrete inputs, from the test suite and the spec's scenarios *)

(** Caller-supplied functions: 0 is [v => v * v] (on numbers), 1 is
    [() => { throw new Error(); }], 2 is [v => false], 3 throws a
    [RequirementError] built for another key, any other is [v => v]. *)
Definition example_call (id : nat) (v : jsval) : res jsval :=
  match id, v with
  | 0, JNum n => Ok (JNum (n * n))
  | 1, _ => Throw (UserError JUndef)
  | 2, _ => Ok (JBool false)
  | 3, _ => Throw (RequirementError "other" (JStr "from map"))
  | _, _ => Ok v
  end.

(** [validateOptions({foo: 123, bar: 456}, {foo: {}, bar: {}, baz: {}})] *)
Definition heap_nonempty : heap :=
  [CObj [("foo", JNum 123); ("bar", JNum 456)]; CObj []; CObj []; CObj [];
   CObj [("foo", JRef 1); ("bar", JRef 2); ("baz", JRef 3)]].

(** [validateOptions({foo: 3}, {foo: {map: v => v * v}})] *)
Definition heap_map : heap :=
  [CObj [("foo", JNum 3)]; CFun 0; CObj [("map", JRef 1)]; CObj [("foo", JRef 2)]].

(** [validateOptions({foo: 3}, {foo: {map: () => { throw new Error(); }}})] *)
Definition heap_map_throws : heap :=
  [CObj [("foo", JNum 3)]; CFun 1; CObj [("map", JRef 1)]; CObj [("foo", JRef 2)]].

(** [validateOptions({foo: undefined}, {foo: {dflt: 1}})] *)
Definition heap_dflt_undefined : heap :=
  [CObj [("foo", JUndef)]; CObj [("dflt", JNum 1)]; CObj [("foo", JRef 1)]].

(** [validateOptions({}, {foo: {dflt: 1}})] *)
Definition heap_dflt_absent : heap :=
  [CObj []; CObj [("dflt", JNum 1)]; CObj [("foo", JRef 1)]].

(** [validateOptions(null, {foo: {ok: v => false, msg: ''}})] *)
Definition heap_empty_msg : heap :=
  [CFun 2; CObj [("ok", JRef 0); ("msg", JStr EmptyString)]; CObj [("foo", JRef 1)]].

(** [validateOptions(null, {foo: {is: ['object', 'number']}})] *)
Definition heap_is_message : heap :=
  [CArr [JStr "object"; JStr "number"]; CObj [("is", JRef 0)]; CObj [("foo", JRef 1)]].

(** [validateOptions({foo: 5}, {foo: {is: {is: {is: ['string']}}}})] *)
Definition heap_nested3 : heap :=
  [CArr [JStr "string"]; CObj [("is", JRef 0)]; CObj [("is", JRef 1)];
   CObj [("is", JRef 2)]; CObj [("foo", JRef 3)]; CObj [("foo", JNum 5)]].

(** [validateOptions(null, {a: {ok: v => false}, b: {is: ['bogus']}})] *)
Definition heap_bad_tag_after_failure : heap :=
  [CFun 2; CObj [("ok", JRef 0)]; CArr [JStr "bogus"]; CObj [("is", JRef 2)];
   CObj [("a", JRef 1); ("b", JRef 3)]].

(** [validateOptions(null, {a: {}, b: {is: ['string', 'bogus']}})] *)
Definition heap_bad_tag : heap :=
  [CObj []; CArr [JStr "string"; JStr "bogus"]; CObj [("is", JRef 1)];
   CObj [("a", JRef 0); ("b", JRef 2)]].

(** [validateOptions(null, {foo: {map: <throws a RequirementError>, is: ['bogus']}})] *)
Definition heap_bad_tag_map_fails : heap :=
  [CFun 3; CArr [JStr "bogus"]; CObj [("map", JRef 0); ("is", JRef 1)];
   CObj [("foo", JRef 2)]].

(** [validateOptions({foo: 5}, {foo: {is: ['string'], ok: v => v}})] *)
Definition heap_ok_after_type_failure : heap :=
  [CFun 4; CArr [JStr "string"]; CObj [("is", JRef 1); ("ok", JRef 0)];
   CObj [("foo", JRef 2)]; CObj [("foo", JNum 5)]].

(** [validateOptions({}, {foo: {is: ['string', 'undefined', 'null'], ok: v => false}})]
    and the same with [{foo: 'x'}]. *)
Definition heap_optional_ok : heap :=
  [CFun 2; CArr [JStr "string"; JStr "undefined"; JStr "null"];
   CObj [("is", JRef 1); ("ok", JRef 0)]; CObj [("foo", JRef 2)]; CObj [];
   CObj [("foo", JStr "x")]].

(** [validateOptions({foo: 5}, {foo: {is: {is: ['number']}, ok: v => false}})] *)
Definition heap_nested_ok : heap :=
  [CFun 2; CArr [JStr "number"]; CObj [("is", JRef 1)]; CObj [("is", JRef 2); ("ok", JRef 0)];
   CObj [("foo", JRef 3)]; CObj [("foo", JNum 5)]].

(** Three raw tag arrays: [['string'], ['number'], ['boolean']]. *)
Definition heap_three_arrays : heap :=
  [CArr [JStr "string"]; CArr [JStr "number"]; CArr [JStr "boolean"]].

(** [exports.string = {is: ['string', 'undefined', 'null']}] *)
Definition heap_string_req : heap :=
  [CArr [JStr "string"; JStr "undefined"; JStr "null"]; CObj [("is", JRef 0)]].

(** [exports.string] and [exports.number], for
    [either(exports.string, exports.number)]. *)
Definition heap_either : heap :=
  [CArr [JStr "string"; JStr "undefined"; JStr "null"]; CObj [("is", JRef 0)];
   CArr [JStr "number"; JStr "undefined"; JStr "null"]; CObj [("is", JRef 2)]].

(** [validateOptions({foo: 5}, {foo: {is: ['number'], ok: v => v}})] *)
Definition heap_typed_ok : heap :=
  [CFun 4; CArr [JStr "number"]; CObj [("is", JRef 1); ("ok", JRef 0)];
   CObj [("foo", JRef 2)]; CObj [("foo", JNum 5)]].

(** [optional({is: null})] *)
Definition heap_is_null : heap := [CObj [("is", JNull)]].

(** The example of [merge]'s documentation:
    [merge({bar: 0, a: 'a'}, {foo: 'foo', bar: 1}, null, {foo: 'bar', name: 'b'})]. *)
Definition heap_merge : heap :=
  [CObj [("bar", JNum 0); ("a", JStr "a")]; CObj [("foo", JStr "foo"); ("bar", JNum 1)];
   CObj [("foo", JStr "bar"); ("name", JStr "b")]].

(** The errors the language itself raises (and the model's own marker). *)
Definition engine_err (e : exn) : Prop :=
  match e with TypeError _ | Unmodelled _ => True | _ => False end.

(** * Proofs *)

Section CallFacts.
Variable call : nat -> jsval -> res jsval.

Lemma call_fn_spec h ev f v tr :
  exists tr', call_fn call h ev f v tr = (tr', call_js call h f v).
Proof.
  unfold call_fn. destruct f; eauto.
  destruct (nth_error h l) as [[]|]; eauto.
Qed.

End CallFacts.

(** C2: a transform that throws a ValidationFailure aborts the call with
    that error; a transform that throws anything else is ignored: the rest
    of the key's validation (type check, predicate, inclusion) runs on the
    pre-transform value, with [mapThrew] set, and no error comes from the
    transform. *)
Theorem transform_failure_falls_back call h options key req validated f keyInOpts v0 tr :
  presence h options key req = Ok (keyInOpts, v0) ->
  get_prop h req "map" = Ok f -> truthy f = true ->
  (forall k' m, call_js call h f v0 = Throw (RequirementError k' m) ->
     exists tr', validate_key call h options key req validated tr
                 = (tr', Throw (RequirementError k' m))) /\
  (forall e, call_js call h f v0 = Throw e ->
     (forall k' m, e <> RequirementError k' m) -> (forall w, e <> Unmodelled w) ->
     exists tr', validate_key call h options key req validated tr
                 = after_map call h key req keyInOpts v0 true validated tr').
Proof.
  intros Hp Hm Hf.
  destruct (call_fn_spec call h (CalledMap key) f v0 tr) as [tr1 Hc].
  unfold validate_key, apply_map, bind, lift, try_catch.
  rewrite Hp, Hm, Hf. cbn. rewrite Hc. split.
  - intros k' m He. rewrite He. cbn. eauto.
  - intros e He Hnr Hnu. rewrite He.
    destruct e; try (exfalso; eapply Hnr; reflexivity); try (exfalso; eapply Hnu; reflexivity);
      cbn; eauto.
Qed.

(** ** The loop and the inclusion rule *)

Lemma res_bind_ok {A B} (r : res A) (k : A -> res B) b :
  res_bind r k = Ok b -> exists a, r = Ok a /\ k a = Ok b.
Proof. destruct r; cbn; [eauto | discriminate]. Qed.

Ltac res_inv H a Ha Hk := apply res_bind_ok in H; destruct H as [a [Ha Hk]].

Lemma presence_keyInOpts h options key req keyInOpts v0 :
  presence h options key req = Ok (keyInOpts, v0) ->
  exists kin hd, in_options h options key = Ok kin /\ has_prop h req "dflt" = Ok hd /\
                 keyInOpts = kin || hd.
Proof.
  unfold presence. intros H.
  res_inv H kin Hin H. res_inv H ov Hov H. res_inv H hd0 Hd H.
  exists kin, hd0. split; [assumption | split; [assumption |]].
  destruct kin; cbn in Hov.
  - destruct (hd0 && is_undefined ov).
    + res_inv H d Hdv H. injection H as <- _. reflexivity.
    + injection H as <- _. reflexivity.
  - injection Hov as <-. destruct hd0; cbn in H.
    + res_inv H d Hdv H. injection H as <- _. reflexivity.
    + injection H as <- _. reflexivity.
Qed.

Lemma in_obj_set k v ps x :
  In x (map fst (obj_set k v ps)) <-> x = k \/ In x (map fst ps).
Proof.
  induction ps as [| [k' v'] ps IH]; cbn.
  - split; [intros [<- | []] | intros [-> | []]]; left; reflexivity.
  - destruct (String.eqb_spec k k') as [<- | Hne]; cbn.
    + split; [intros [<- | H]; [left | right; right]; auto |].
      intros [-> | [<- | H]]; auto.
    + rewrite IH. tauto.
Qed.

Section Loop.
Variable call : nat -> jsval -> res jsval.

Lemma apply_map_ok h key req v0 tr tr' v1 mapThrew :
  apply_map call h key req v0 tr = (tr', Ok (v1, mapThrew)) ->
  exists f, get_prop h req "map" = Ok f /\
    ((truthy f = true /\ mapThrew = false /\ call_js call h f v0 = Ok v1) \/
     (truthy f = true /\ mapThrew = true /\ v1 = v0 /\ exists e, call_js call h f v0 = Throw e) \/
     (truthy f = false /\ mapThrew = false /\ v1 = v0)).
Proof.
  unfold apply_map, bind, lift, try_catch. intros H.
  destruct (get_prop h req "map") as [f|e] eqn:Hm; [| discriminate].
  exists f. split; [reflexivity |].
  destruct (truthy f) eqn:Hf.
  - destruct (call_fn_spec call h (CalledMap key) f v0 tr) as [tr1 Hc].
    cbv beta in H. rewrite Hc in H.
    destruct (call_js call h f v0) as [w|e] eqn:Hcall; cbn in H.
    + injection H as _ <- <-. left. auto.
    + destruct e; cbn in H; try discriminate; injection H as _ <- <-;
        right; left; eauto 6.
  - injection H as _ <- <-. right; right. auto.
Qed.

Lemma validate_key_ok h options key req acc tr tr' acc' :
  validate_key call h options key req acc tr = (tr', Ok acc') ->
  exists v, (acc' = obj_set key v acc /\ included_by_spec call h options key req) \/
            (acc' = acc /\ ~ included_by_spec call h options key req).
Proof.
  intros H. unfold validate_key, bind at 1, lift at 1 in H.
  destruct (presence h options key req) as [[kin v0]|e] eqn:Hp; [| discriminate].
  destruct (presence_keyInOpts _ _ _ _ _ _ Hp) as (kin0 & hd0 & Hin & Hd & ->).
  cbv beta iota in H. unfold bind at 1 in H.
  destruct (apply_map call h key req v0 tr) as [tr1 [[v1 mt]|e]] eqn:Ham; [| discriminate].
  destruct (apply_map_ok _ _ _ _ _ _ _ _ Ham) as (f & Hm & Hcase).
  unfold after_map, bind, lift in H.
  destruct (check_types h key req v1) as [iso|e]; [| discriminate].
  destruct (check_ok call h key req iso v1 tr1) as [tr2 [[]|e]]; [| discriminate].
  unfold include in H. rewrite Hm in H. cbn in H.
  exists v1. unfold included_by_spec.
  destruct (kin0 || hd0) eqn:Hkh; cbn in H.
  - injection H as _ <-. left. split; [reflexivity |].
    apply orb_true_iff in Hkh as [-> | ->]; tauto.
  - apply orb_false_iff in Hkh as [-> ->].
    assert (Hnot : ~ (in_options h options key = Ok true \/ has_prop h req "dflt" = Ok true)).
    { rewrite Hin, Hd. intros [E | E]; discriminate. }
    destruct Hcase as [(Hf & -> & Hc) | [(Hf & -> & -> & e & Hc) | (Hf & -> & ->)]];
      rewrite ?Hf in H; cbn in H.
    + destruct (is_undefined v1) eqn:Hu; cbn in H; injection H as _ <-.
      * right. split; [reflexivity |].
        intros [E | [E | (f' & b & w0 & w & Hm' & _ & Hp' & Hc' & Hw)]]; [tauto | tauto |].
        rewrite Hm in Hm'. injection Hm' as <-. rewrite Hp in Hp'. injection Hp' as _ <-.
        rewrite Hc in Hc'. injection Hc' as <-. destruct v1; discriminate || contradiction.
      * left. split; [reflexivity |]. right; right.
        exists f, false, v0, v1. repeat split; auto. destruct v1; discriminate.
    + injection H as _ <-. right. split; [reflexivity |].
      intros [E | [E | (f' & b & w0 & w & Hm' & _ & Hp' & Hc' & Hw)]]; [tauto | tauto |].
      rewrite Hm in Hm'. injection Hm' as <-. rewrite Hp in Hp'. injection Hp' as _ <-.
      rewrite Hc in Hc'. discriminate.
    + injection H as _ <-. right. split; [reflexivity |].
      intros [E | [E | (f' & b & w0 & w & Hm' & Hf' & _)]]; [tauto | tauto |].
      rewrite Hm in Hm'. injection Hm' as <-. congruence.
Qed.

Lemma validate_all_keys h options ps acc tr tr' res :
  validate_all call h options ps acc tr = (tr', Ok res) ->
  forall x, In x (map fst res) <->
            In x (map fst acc) \/
            exists req, In (x, req) ps /\ included_by_spec call h options x req.
Proof.
  revert acc tr. induction ps as [| [k r] ps IH]; intros acc tr H x; cbn in H.
  - unfold ret in H. injection H as _ <-. cbn. split; [tauto |].
    intros [H | (req & [] & _)]. exact H.
  - unfold bind at 1 in H.
    destruct (validate_key call h options k r acc tr) as [tr1 [acc1|e]] eqn:Hk;
      [| discriminate].
    rewrite (IH _ _ H x).
    destruct (validate_key_ok _ _ _ _ _ _ _ _ Hk) as [v [[-> Hi] | [-> Hni]]].
    + rewrite in_obj_set. split.
      * intros [[-> | Ha] | (req & Hin & Hr)].
        -- right. exists r. split; [left; reflexivity | exact Hi].
        -- left. exact Ha.
        -- right. exists req. split; [right; exact Hin | exact Hr].
      * intros [Ha | (req & [Heq | Hin] & Hr)].
        -- left. right. exact Ha.
        -- injection Heq as -> ->. left. left. reflexivity.
        -- right. exists req. split; [exact Hin | exact Hr].
    + split.
      * intros [Ha | (req & Hin & Hr)].
        -- left. exact Ha.
        -- right. exists req. split; [right; exact Hin | exact Hr].
      * intros [Ha | (req & [Heq | Hin] & Hr)].
        -- left. exact Ha.
        -- injection Heq as -> ->. contradiction.
        -- right. exists req. split; [exact Hin | exact Hr].
Qed.

End Loop.

(** C4: when validateOptions returns, its result holds exactly the
    requirement keys that are in [options], or whose requirement supplies a
    default, or whose transform returned a defined value; no other key, in
    particular no key of [options] without a requirement. *)
Theorem validateOptions_result_keys call h options lreq ps tr tr' res :
  nth_error h lreq = Some (CObj ps) ->
  validateOptions call h options (JRef lreq) tr = (tr', Ok res) ->
  forall k, In k (map fst res) <->
            exists req, In (k, req) ps /\ included_by_spec call h options k req.
Proof.
  intros Hl H k. unfold validateOptions, bind, lift, requirement_entries in H.
  rewrite Hl in H.
  rewrite (validate_all_keys _ _ _ _ _ _ _ _ H k). cbn.
  split; [intros [[] | Hx]; exact Hx | intros Hx; right; exact Hx].
Qed.

Lemma assoc_obj_set k k' v ps :
  assoc k (obj_set k' v ps) = if String.eqb k k' then Some v else assoc k ps.
Proof.
  induction ps as [| [k'' v''] ps IH]; cbn.
  - reflexivity.
  - destruct (String.eqb_spec k' k'') as [<- | Hne]; cbn.
    + destruct (String.eqb k k'); reflexivity.
    + rewrite IH. destruct (String.eqb_spec k k') as [-> | Hk]; [| reflexivity].
      apply String.eqb_neq in Hne. now rewrite Hne.
Qed.

Section LoopValues.
Variable call : nat -> jsval -> res jsval.

Lemma validate_all_other h options ps acc tr tr' res k :
  ~ In k (map fst ps) ->
  validate_all call h options ps acc tr = (tr', Ok res) -> assoc k res = assoc k acc.
Proof.
  revert acc tr. induction ps as [| [k' r] ps IH]; intros acc tr Hn H; cbn in H.
  - unfold ret in H. now injection H as _ <-.
  - unfold bind at 1 in H.
    destruct (validate_key call h options k' r acc tr) as [tr1 [acc1|e]] eqn:Hk;
      [| discriminate].
    cbn in Hn. rewrite (IH _ _ (fun Hi => Hn (or_intror Hi)) H).
    destruct (validate_key_ok _ _ _ _ _ _ _ _ _ Hk) as [v [[-> _] | [-> _]]];
      [| reflexivity].
    rewrite assoc_obj_set. destruct (String.eqb_spec k k') as [-> | _]; [| reflexivity].
    exfalso. apply Hn. left. reflexivity.
Qed.

Lemma validate_all_assoc h options ps acc tr tr' res k R v :
  NoDup (map fst ps) -> In (k, R) ps ->
  (forall acc0 tr0 tr1 acc1, validate_key call h options k R acc0 tr0 = (tr1, Ok acc1) ->
                             acc1 = obj_set k v acc0) ->
  validate_all call h options ps acc tr = (tr', Ok res) -> assoc k res = Some v.
Proof.
  revert acc tr. induction ps as [| [k' r] ps IH]; intros acc tr Hnd Hin Hkey H;
    [destruct Hin |].
  cbn in H. unfold bind at 1 in H.
  destruct (validate_key call h options k' r acc tr) as [tr1 [acc1|e]] eqn:Hk;
    [| discriminate].
  cbn in Hnd. inversion Hnd as [| ? ? Hnotin Hnd']. subst.
  destruct Hin as [Heq | Hin].
  - injection Heq as -> ->.
    rewrite (validate_all_other _ _ _ _ _ _ _ _ Hnotin H).
    rewrite (Hkey _ _ _ _ Hk), assoc_obj_set, String.eqb_refl. reflexivity.
  - exact (IH _ _ Hnd' Hin Hkey H).
Qed.

Lemma validate_key_nomap h options key req acc tr tr' acc' v f :
  presence h options key req = Ok (true, v) ->
  get_prop h req "map" = Ok f -> truthy f = false ->
  validate_key call h options key req acc tr = (tr', Ok acc') -> acc' = obj_set key v acc.
Proof.
  intros Hp Hm Hf H. unfold validate_key, bind at 1, lift at 1 in H. rewrite Hp in H.
  cbv beta iota in H. unfold apply_map, bind at 1, bind at 1, lift at 1 in H.
  rewrite Hm, Hf in H. cbn in H.
  unfold after_map, bind, lift in H.
  destruct (check_types h key req v) as [iso|e]; [| discriminate].
  destruct (check_ok call h key req iso v tr) as [tr2 [[]|e]]; [| discriminate].
  unfold include in H. rewrite Hm in H. cbn in H. now injection H as _ <-.
Qed.

End LoopValues.

(** C5 (as amended): for a requirement with a default, the key's value
    entering the transform, type and predicate steps is the default exactly
    when the key is absent from [options] or its supplied value is
    [undefined], and the key then counts as present; without a transform
    the result maps the key to that value. *)
Theorem default_when_absent_or_undefined call h options lreq ps k R dflt v0 :
  nth_error h lreq = Some (CObj ps) -> NoDup (map fst ps) -> In (k, R) ps ->
  has_prop h R "dflt" = Ok true -> get_prop h R "dflt" = Ok dflt ->
  (in_options h options k = Ok true /\ get_prop h options k = Ok v0 \/
   in_options h options k = Ok false /\ v0 = JUndef) ->
  presence h options k R = Ok (true, if is_undefined v0 then dflt else v0) /\
  (forall f tr tr' res, get_prop h R "map" = Ok f -> truthy f = false ->
     validateOptions call h options (JRef lreq) tr = (tr', Ok res) ->
     assoc k res = Some (if is_undefined v0 then dflt else v0)).
Proof.
  intros Hl Hnd Hin Hd Hdv Hv.
  assert (Hp : presence h options k R = Ok (true, if is_undefined v0 then dflt else v0)).
  { unfold presence.
    destruct Hv as [[Hio Hg] | [Hio ->]]; rewrite Hio; cbn; [rewrite Hg |]; cbn;
      rewrite Hd; cbn; [| rewrite Hdv; reflexivity].
    destruct (is_undefined v0); cbn; [rewrite Hdv |]; reflexivity. }
  split; [exact Hp |].
  intros f tr tr' res Hm Hf H.
  unfold validateOptions, bind at 1, lift at 1, requirement_entries in H. rewrite Hl in H.
  refine (validate_all_assoc call h options ps [] tr tr' res k R _ Hnd Hin _ H).
  intros acc0 tr0 tr1 acc1 Hk. exact (validate_key_nomap _ _ _ _ _ _ _ _ _ _ _ Hp Hm Hf Hk).
Qed.

(** C5, counterexample: a key present in [options] with the value
    [undefined] gets the default, not the supplied [undefined]. *)
Lemma default_replaces_supplied_undefined :
  in_options heap_dflt_undefined (JRef 0) "foo" = Ok true /\
  get_prop heap_dflt_undefined (JRef 0) "foo" = Ok JUndef /\
  validateOptions example_call heap_dflt_undefined (JRef 0) (JRef 2) []
  = ([], Ok [("foo", JNum 1)]).
Proof. repeat split; reflexivity. Qed.

(** ** Where errors come from *)

Create HintDb errors.

Lemma get_prop_throw h v n e : get_prop h v n = Throw e -> engine_err e.
Proof.
  destruct v; cbn; try discriminate; try (intros H; injection H as <-; exact I).
  destruct (nth_error h l) as [[]|]; intros H; try discriminate; injection H as <-; exact I.
Qed.

Lemma has_prop_throw h v n e : has_prop h v n = Throw e -> engine_err e.
Proof.
  destruct v; cbn; try (intros H; injection H as <-; exact I).
  destruct (nth_error h l) as [[]|]; intros H; try discriminate; injection H as <-; exact I.
Qed.

Lemma in_options_throw h o k e : in_options h o k = Throw e -> engine_err e.
Proof. unfold in_options. destruct (truthy o); [apply has_prop_throw | discriminate]. Qed.

Lemma array_receiver_throw h v n e : array_receiver h v n = Throw e -> engine_err e.
Proof.
  unfold array_receiver, method_missing. destruct (array_elems h v); [discriminate |].
  destruct v; intros H; try (injection H as <-; exact I).
  destruct (nth_error h l) as [[ps| | |]|]; try (injection H as <-; exact I).
  destruct (assoc n ps); injection H as <-; exact I.
Qed.

Lemma res_bind_throw {A B} (r : res A) (k : A -> res B) e :
  res_bind r k = Throw e -> r = Throw e \/ exists a, r = Ok a /\ k a = Throw e.
Proof. destruct r; cbn; [eauto | intros H; injection H as <-; auto]. Qed.

Lemma elem_string_throw x e : elem_string x = Throw e -> engine_err e.
Proof. destruct x; cbn; try discriminate; intros H; injection H as <-; exact I. Qed.

Lemma join_throw sep xs e : join sep xs = Throw e -> engine_err e.
Proof.
  induction xs as [| x xs IH]; intros H; [discriminate |].
  destruct xs as [| y ys]; [exact (elem_string_throw _ _ H) |].
  change (join sep (x :: y :: ys)) with
    (s <-? elem_string x ;; r <-? join sep (y :: ys) ;; Ok (s ++ sep ++ r)) in H.
  apply res_bind_throw in H as [H | (s & _ & H)]; [exact (elem_string_throw _ _ H) |].
  apply res_bind_throw in H as [H | (r & _ & H)]; [exact (IH H) | discriminate].
Qed.

#[local] Hint Resolve get_prop_throw has_prop_throw in_options_throw array_receiver_throw
  join_throw : errors.

(** Splits a hypothesis [H : <computation> = Throw e] into the throwing
    step, and closes the cases where the step is one of the language's. *)
Ltac throw_cases H :=
  match type of H with
  | res_bind ?r _ = Throw _ =>
      let E := fresh "E" in
      destruct r eqn:E; cbn in H;
      [ throw_cases H | injection H as <-; throw_cases E ]
  | (if ?b then _ else _) = Throw _ =>
      let E := fresh "E" in destruct b eqn:E; cbn in H; throw_cases H
  | (match ?x with _ => _ end) = Throw _ =>
      let E := fresh "E" in destruct x eqn:E; cbn in H; throw_cases H
  | _ => try solve [eauto with errors]
  end.

Lemma presence_throw h o k r e : presence h o k r = Throw e -> engine_err e.
Proof.
  unfold presence. intros H. throw_cases H; try discriminate.
Qed.

Lemma new_RequirementError_throw h k r e :
  new_RequirementError h k r = Throw e -> engine_err e.
Proof.
  unfold new_RequirementError. intros H. throw_cases H; discriminate.
Qed.

#[local] Hint Resolve new_RequirementError_throw : errors.

Lemma check_type_names_throw ts e :
  check_type_names ts = Throw e -> exists t, e = invalid_tag_error t.
Proof.
  induction ts as [| t ts IH]; cbn; [discriminate |].
  destruct (Z.eqb _ _); [intros H; injection H as <-; eauto | exact IH].
Qed.

Lemma check_types_throw h k r v e :
  check_types h k r v = Throw e ->
  engine_err e \/ (exists t, e = invalid_tag_error t) \/ new_RequirementError h k r = Ok e.
Proof.
  unfold check_types. intros H. throw_cases H; try discriminate; auto.
  - injection H as <-. auto.
  - right; left. eapply check_type_names_throw; eassumption.
Qed.

Section Stages.
Variable call : nat -> jsval -> res jsval.

Lemma apply_map_throw h k r v tr tr' e :
  apply_map call h k r v tr = (tr', Throw e) ->
  engine_err e \/ exists f, get_prop h r "map" = Ok f /\ call_js call h f v = Throw e.
Proof.
  unfold apply_map, bind, lift, try_catch. intros H.
  destruct (get_prop h r "map") as [f|e'] eqn:Hm;
    [| injection H as _ <-; eauto with errors].
  destruct (truthy f); [| discriminate].
  destruct (call_fn_spec call h (CalledMap k) f v tr) as [tr1 Hc].
  cbv beta in H. rewrite Hc in H.
  destruct (call_js call h f v) as [w|e'] eqn:Hcall; cbn in H; [discriminate |].
  destruct e'; cbn in H; try discriminate; injection H as _ <-; eauto.
Qed.

Lemma check_ok_throw h k r iso v tr tr' e :
  check_ok call h k r iso v tr = (tr', Throw e) ->
  engine_err e \/ (exists f, get_prop h r "ok" = Ok f /\ call_js call h f v = Throw e) \/
  new_RequirementError h k r = Ok e.
Proof.
  unfold check_ok, bind, lift. intros H.
  destruct (get_prop h r "ok") as [f|e'] eqn:Hm;
    [| injection H as _ <-; eauto with errors].
  destruct (truthy f && _); [| discriminate].
  destruct (call_fn_spec call h (CalledOk k) f v tr) as [tr1 Hc].
  rewrite Hc in H.
  destruct (call_js call h f v) as [w|e'] eqn:Hcall; cbn in H;
    [| injection H as _ <-; eauto].
  destruct (negb (truthy w)); [| discriminate].
  destruct (new_RequirementError h k r) eqn:En; cbn in H; injection H as _ <-;
    eauto with errors.
Qed.

Lemma include_throw h k r kin mt v acc e :
  include h k r kin mt v acc = Throw e -> engine_err e.
Proof.
  unfold include. intros H. throw_cases H; discriminate.
Qed.

Lemma validate_key_throw h o k r acc tr tr' e :
  validate_key call h o k r acc tr = (tr', Throw e) ->
  engine_err e \/ (exists t, e = invalid_tag_error t) \/
  (exists f v, (get_prop h r "map" = Ok f \/ get_prop h r "ok" = Ok f) /\
               call_js call h f v = Throw e) \/
  new_RequirementError h k r = Ok e.
Proof.
  intros H. unfold validate_key, bind at 1, lift at 1 in H.
  destruct (presence h o k r) as [[kin v0]|e'] eqn:Hp;
    [| injection H as _ <-; left; eapply presence_throw; eassumption].
  cbv beta iota in H. unfold bind at 1 in H.
  destruct (apply_map call h k r v0 tr) as [tr1 [[v1 mt]|e']] eqn:Ham.
  2: { injection H as _ <-.
       destruct (apply_map_throw _ _ _ _ _ _ _ Ham) as [? | (f & ? & ?)]; eauto 8. }
  unfold after_map, bind at 1, lift at 1 in H.
  destruct (check_types h k r v1) as [iso|e'] eqn:Hct.
  2: { injection H as _ <-. destruct (check_types_throw _ _ _ _ _ Hct) as [? | [? | ?]]; auto. }
  unfold bind in H.
  destruct (check_ok call h k r iso v1 tr1) as [tr2 [[]|e']] eqn:Hok.
  2: { injection H as _ <-.
       destruct (check_ok_throw _ _ _ _ _ _ _ _ Hok) as [? | [(f & ? & ?) | ?]]; eauto 8. }
  unfold lift in H. injection H as _ H. left. eapply include_throw; eassumption.
Qed.

Lemma validate_all_throw h o ps acc tr tr' e :
  validate_all call h o ps acc tr = (tr', Throw e) ->
  exists k r acc0 tr0, In (k, r) ps /\ validate_key call h o k r acc0 tr0 = (tr', Throw e).
Proof.
  revert acc tr. induction ps as [| [k r] ps IH]; intros acc tr H; cbn in H;
    [discriminate |].
  unfold bind at 1 in H.
  destruct (validate_key call h o k r acc tr) as [tr1 [acc1|e']] eqn:Hk.
  - destruct (IH _ _ H) as (k' & r' & acc0 & tr0 & Hin & Hk'). exists k', r', acc0, tr0.
    split; [right; exact Hin | exact Hk'].
  - injection H as -> ->. exists k, r, acc, tr. split; [left; reflexivity | exact Hk].
Qed.

End Stages.

Lemma array_receiver_ok h v n ts : array_receiver h v n = Ok ts -> array_elems h v = Some ts.
Proof.
  unfold array_receiver, method_missing. destruct (array_elems h v); [congruence |].
  destruct v; try discriminate. destruct (nth_error h l) as [[ps| | |]|]; try discriminate.
  destruct (assoc n ps); discriminate.
Qed.

Lemma new_RequirementError_message h k r k' m :
  new_RequirementError h k r = Ok (RequirementError k' m) ->
  k' = k /\ exists msg, get_prop h r "msg" = Ok msg /\
   ((truthy msg = true /\ m = msg) \/
    (truthy msg = false /\ exists is, get_prop h r "is" = Ok is /\
      ((truthy is = true /\ exists ts s, array_elems h is = Some ts /\ join ", " ts = Ok s /\
          m = JStr (("The option " ++ dq ++ k ++ dq ++ " ") ++
                    "must be one of the following types: " ++ s)) \/
       (truthy is = false /\
          m = JStr (("The option " ++ dq ++ k ++ dq ++ " ") ++ "is invalid."))))).
Proof.
  unfold new_RequirementError.
  destruct (get_prop h r "msg") as [msg|e] eqn:Hmsg; cbn; [| discriminate].
  destruct (truthy msg) eqn:Ht.
  - intros H. injection H as -> ->. split; [first [reflexivity | assumption] |]. eauto.
  - destruct (get_prop h r "is") as [is|e] eqn:His; cbn; [| discriminate].
    destruct (truthy is) eqn:Hti.
    + destruct (array_receiver h is "join") as [ts|e] eqn:Har; cbn; [| discriminate].
      destruct (join ", " ts) as [s|e] eqn:Hj; cbn; [| discriminate].
      intros H. injection H as -> <-. split; [first [reflexivity | assumption] |].
      exists msg. split; [first [reflexivity | assumption] |]. right. split; [first [reflexivity | assumption] |].
      exists is. split; [first [reflexivity | assumption] |]. left. split; [first [reflexivity | assumption] |].
      exists ts, s. apply array_receiver_ok in Har. auto.
    + intros H. injection H as -> <-. split; [first [reflexivity | assumption] |].
      exists msg. split; [first [reflexivity | assumption] |]. right. split; [first [reflexivity | assumption] |].
      exists is. split; [first [reflexivity | assumption] |]. right. auto.
Qed.


(** C6 (code bug): [RequirementError] tests [!msg], so a custom [msg]
    that is the empty string is not used, although the documentation of
    [msg] says the string is used as the message and the generic message
    applies only when [msg] is undefined.  [validateOptions(null, {foo:
    {ok: v => false, msg: ''}})] raises "The option "foo" is invalid.". *)
Theorem empty_msg_not_used :
  get_prop heap_empty_msg (JRef 1) "msg" = Ok (JStr EmptyString) /\
  validateOptions example_call heap_empty_msg JNull (JRef 2) []
  = ([CalledOk "foo" JUndef],
     Throw (RequirementError "foo" (JStr ("The option " ++ dq ++ "foo" ++ dq ++ " is invalid.")))).
Proof. split; reflexivity. Qed.

(** ** The sanity check of type names *)

Lemma strict_eq_spec a b : strict_eq a b = true <-> a = b.
Proof.
  destruct a, b; cbn; split; intros H; try discriminate; try congruence;
    try (apply Bool.eqb_prop in H; congruence);
    try (apply Z.eqb_eq in H; congruence);
    try (apply String.eqb_eq in H; congruence);
    try (apply Nat.eqb_eq in H; congruence);
    try (injection H as ->);
    try apply Bool.eqb_reflx; try apply Z.eqb_refl; try apply String.eqb_refl;
    try apply Nat.eqb_refl; reflexivity.
Qed.

Lemma indexOf_cases l x :
  ((indexOf l x = -1)%Z /\ ~ In x l) \/ (0 <= indexOf l x /\ In x l)%Z.
Proof.
  induction l as [| y l IH]; cbn; [left; auto |].
  destruct (strict_eq y x) eqn:E.
  - apply strict_eq_spec in E. right. split; [lia | left; exact E].
  - assert (y <> x) by (intros <-; rewrite (proj2 (strict_eq_spec y y) eq_refl) in E;
                        discriminate).
    destruct IH as [[-> Hn] | [Hi Hin]].
    + left. split; [reflexivity |]. intros [-> | Hin]; contradiction.
    + right. destruct (Z.ltb_spec (indexOf l x) 0); [lia |]. split; [lia | right; exact Hin].
Qed.

Lemma indexOf_absent l x : (indexOf l x = -1)%Z <-> ~ In x l.
Proof. destruct (indexOf_cases l x) as [[-> H] | [H1 H2]]; split; intros; auto; lia || contradiction. Qed.

Lemma check_type_names_invalid ts t :
  In t ts -> ~ In t (map JStr VALID_TYPES) ->
  exists t', check_type_names ts = Throw (invalid_tag_error t') /\
             In t' ts /\ ~ In t' (map JStr VALID_TYPES).
Proof.
  induction ts as [| a ts IH]; intros Hin Hbad; [destruct Hin |]. cbn [check_type_names].
  destruct (Z.eqb_spec (indexOf (map JStr VALID_TYPES) a) (-1)%Z) as [E | E].
  - exists a. apply indexOf_absent in E.
    split; [reflexivity | split; [left; reflexivity | exact E]].
  - destruct Hin as [-> | Hin].
    + exfalso. apply E, indexOf_absent, Hbad.
    + destruct (IH Hin Hbad) as (t' & H1 & H2 & H3). exists t'.
      split; [exact H1 | split; [right; exact H2 | exact H3]].
Qed.

Lemma check_type_names_valid ts :
  (forall t, In t ts -> In t (map JStr VALID_TYPES)) -> check_type_names ts = Ok tt.
Proof.
  induction ts as [| a ts IH]; intros Hv; cbn [check_type_names]; [reflexivity |].
  destruct (Z.eqb_spec (indexOf (map JStr VALID_TYPES) a) (-1)%Z) as [E | E].
  - apply indexOf_absent in E. exfalso. apply E, Hv. left. reflexivity.
  - apply IH. intros t Ht. apply Hv. right. exact Ht.
Qed.

Lemma get_prop_ref_truthy h v n l : get_prop h v n = Ok (JRef l) -> truthy v = true.
Proof.
  destruct v; cbn; try discriminate; try reflexivity.
Qed.

(** The tag list the type check works on: [is] itself when it is an
    array, or the array found one [.is] further down. *)
Lemma check_types_tags h k r v is ts
  (His : get_prop h r "is" = Ok is)
  (Hts : array_elems h is = Some ts \/
         exists inner, isArray h is = false /\ get_prop h is "is" = Ok inner /\
                       array_elems h inner = Some ts) :
  check_types h k r v =
    (let isOptional :=
       forallb (fun v => negb (Z.eqb (indexOf ts (JStr v)) (-1)%Z)) ["undefined"; "null"] in
     _ <-? check_type_names ts ;;
     if Z.ltb (indexOf ts (JStr (getTypeOf h v))) 0%Z
     then e <-? new_RequirementError h k r ;; Throw e
     else Ok isOptional).
Proof.
  unfold check_types. rewrite His. cbn.
  destruct Hts as [Ha | (inner & Hna & Hin & Ha)].
  - assert (truthy is = true) as ->.
    { destruct is; try discriminate. reflexivity. }
    unfold isArray at 1. rewrite Ha. cbn. rewrite Ha. reflexivity.
  - assert (truthy is = true) as ->.
    { destruct inner; try discriminate. exact (get_prop_ref_truthy _ _ _ _ Hin). }
    rewrite Hna. cbn. rewrite Hin. cbn. unfold isArray. rewrite Ha. cbn. rewrite Ha.
    reflexivity.
Qed.

Lemma has_prop_get_prop h v n n' b : has_prop h v n = Ok b -> exists x, get_prop h v n' = Ok x.
Proof.
  destruct v; cbn; try discriminate.
  destruct (nth_error h l) as [[]|]; try discriminate. eauto.
Qed.

Section Append.
Variable call : nat -> jsval -> res jsval.

Lemma validate_all_app h o pre rest acc tr :
  validate_all call h o (pre ++ rest) acc tr =
  match validate_all call h o pre acc tr with
  | (tr1, Ok acc1) => validate_all call h o rest acc1 tr1
  | (tr1, Throw e) => (tr1, Throw e)
  end.
Proof.
  revert acc tr. induction pre as [| [k r] pre IH]; intros acc tr; cbn; [reflexivity |].
  unfold bind. destruct (validate_key call h o k r acc tr) as [tr1 [acc1|e]];
    [apply IH | reflexivity].
Qed.

Lemma apply_map_returns h k r v0 f tr :
  get_prop h r "map" = Ok f ->
  (truthy f = true -> (forall k' m, call_js call h f v0 <> Throw (RequirementError k' m)) /\
                      (forall w, call_js call h f v0 <> Throw (Unmodelled w))) ->
  exists tr' v1 mt, apply_map call h k r v0 tr = (tr', Ok (v1, mt)).
Proof.
  intros Hm Hnr. unfold apply_map, bind, lift, try_catch, ret, throw. rewrite Hm. cbv beta iota.
  destruct (truthy f) eqn:Hf; [| eauto].
  destruct (Hnr eq_refl) as [Hr Hu].
  destruct (call_fn_spec call h (CalledMap k) f v0 tr) as [tr1 Hc]. rewrite Hc.
  destruct (call_js call h f v0) as [w|e] eqn:E; cbn; [eauto |].
  destruct e; eauto; [exfalso; eapply Hr | exfalso; eapply Hu]; reflexivity.
Qed.

End Append.



Lemma new_RequirementError_ok h k r e :
  new_RequirementError h k r = Ok e -> exists m, e = RequirementError k m.
Proof.
  unfold new_RequirementError.
  destruct (get_prop h r "msg") as [msg|e'] eqn:Hmsg; cbn; [| discriminate].
  destruct (truthy msg); [intros H; injection H as <-; eauto |].
  destruct (get_prop h r "is") as [is|e'] eqn:His; cbn; [| discriminate].
  destruct (truthy is); [| intros H; injection H as <-; eauto].
  destruct (array_receiver h is "join") as [ts|e']; cbn; [| discriminate].
  destruct (join ", " ts) as [s|e']; cbn; [| discriminate].
  intros H; injection H as <-; eauto.
Qed.

Lemma optional_tags_present ts :
  In (JStr "undefined") ts -> In (JStr "null") ts ->
  forallb (fun v => negb (Z.eqb (indexOf ts (JStr v)) (-1)%Z)) ["undefined"; "null"] = true.
Proof.
  intros Hu Hn. cbn.
  destruct (Z.eqb_spec (indexOf ts (JStr "undefined")) (-1)%Z) as [E | _];
    [apply indexOf_absent in E; contradiction |].
  destruct (Z.eqb_spec (indexOf ts (JStr "null")) (-1)%Z) as [E | _];
    [apply indexOf_absent in E; contradiction |].
  reflexivity.
Qed.


(** C8 (code bug): the type check follows [is] one level down, but the
    default message of [RequirementError] calls [requirement.is.join].  With
    [validateOptions({foo: 5}, {foo: {is: {is: ['number']}, ok: v => false}})]
    the type check passes, [ok] is called with 5 and returns false, and a
    TypeError ([join] is not a function of the nested requirement object)
    is raised instead of a ValidationFailure for [foo]. *)
Theorem falsy_predicate_nested_is_type_error :
  example_call 2 (JNum 5) = Ok (JBool false) /\
  validateOptions example_call heap_nested_ok (JRef 5) (JRef 4) []
  = ([CalledOk "foo" (JNum 5)], Throw (TypeError "join is not a function")).
Proof. split; reflexivity. Qed.

(** C1 (code bug): [union] builds its input with [[].concat.apply(...arrays)],
    so the first array becomes [this] of [concat] and the second its
    argument list, and every further array is ignored:
    [either(['string'], ['number'], ['boolean'])] accepts no booleans. *)
Theorem either_drops_third_argument :
  either [JRef 0; JRef 1; JRef 2] heap_three_arrays
  = ((heap_three_arrays ++ [CArr [JStr "string"; JStr "number"]])%list, Ok (JRef 3)) /\
  accepted_types heap_three_arrays (JRef 2) = Some [JStr "boolean"] /\
  accepted_types (heap_three_arrays ++ [CArr [JStr "string"; JStr "number"]])%list (JRef 3)
  = Some [JStr "string"; JStr "number"].
Proof. split; [| split]; reflexivity. Qed.

(** C3 (code bug): validateOptions follows [is] one level only.  With
    [{is: {is: {is: ['string']}}}], whose tag set (as [findTypes] resolves
    it) is ['string'], the number 5 is accepted without any type check. *)
Theorem nested_is_not_resolved :
  findTypes heap_nested3 (JRef 3) = Ok (JRef 0) /\
  array_elems heap_nested3 (JRef 0) = Some [JStr "string"] /\
  getTypeOf heap_nested3 (JNum 5) = "number" /\
  validateOptions example_call heap_nested3 (JRef 5) (JRef 4) [] = ([], Ok [("foo", JNum 5)]).
Proof. repeat split; reflexivity. Qed.

(** ** The heap of the combinators *)

Lemma length_set_nth l c h : length (set_nth l c h) = length h.
Proof. revert l. induction h as [| x h IH]; intros [| l]; cbn; auto. Qed.

Lemma nth_error_set_nth_eq l c h : l < length h -> nth_error (set_nth l c h) l = Some c.
Proof.
  revert l. induction h as [| x h IH]; intros [| l] Hl; cbn in *; try lia; auto.
  apply IH; lia.
Qed.

Lemma nth_error_set_nth_neq l l' c h : l <> l' -> nth_error (set_nth l c h) l' = nth_error h l'.
Proof.
  revert l l'. induction h as [| x h IH]; intros [| l] [| l'] Hne; cbn; try reflexivity;
    try lia; apply IH; lia.
Qed.

Lemma set_nth_app_r l c (h ext : heap) :
  length h <= l -> set_nth l c (h ++ ext)%list = (h ++ set_nth (l - length h) c ext)%list.
Proof.
  revert l. induction h as [| x h IH]; intros l Hl; cbn in *.
  - now rewrite Nat.sub_0_r.
  - destruct l as [| l]; [lia |]. cbn. f_equal. apply IH. lia.
Qed.

Lemma nth_error_snoc (h : heap) c : nth_error (h ++ [c])%list (length h) = Some c.
Proof. rewrite nth_error_app2, Nat.sub_diag; reflexivity. Qed.

Lemma nth_error_snoc_lt (h : heap) c l : l < length h -> nth_error (h ++ [c])%list l = nth_error h l.
Proof. apply nth_error_app1. Qed.

Lemma obj_set_nodup k v ps : NoDup (map fst ps) -> NoDup (map fst (obj_set k v ps)).
Proof.
  induction ps as [| [k' v'] ps IH]; intros Hnd; cbn.
  - constructor; [intros [] | constructor].
  - inversion Hnd as [| ? ? Hn Hnd']; subst.
    destruct (String.eqb_spec k k') as [<- | Hne]; cbn; [constructor; assumption |].
    constructor; [| exact (IH Hnd')].
    rewrite in_obj_set. intros [-> | Hin]; [exact (Hne eq_refl) | exact (Hn Hin)].
Qed.

Lemma put_all_nodup ps acc : NoDup (map fst acc) -> NoDup (map fst (put_all ps acc)).
Proof.
  unfold put_all. revert acc.
  induction ps as [| [k v] ps IH]; intros acc Hnd; cbn; [exact Hnd |].
  apply IH, obj_set_nodup, Hnd.
Qed.

Lemma assoc_none k ps : ~ In k (map fst ps) -> assoc k ps = None.
Proof.
  induction ps as [| [k' v'] ps IH]; intros Hn; cbn; [reflexivity |].
  destruct (String.eqb_spec k k') as [-> | _]; [exfalso; apply Hn; left; reflexivity |].
  apply IH. intros Hin. apply Hn. right. exact Hin.
Qed.

Lemma assoc_put_all k ps acc :
  NoDup (map fst ps) ->
  assoc k (put_all ps acc) = match assoc k ps with Some v => Some v | None => assoc k acc end.
Proof.
  unfold put_all. revert acc.
  induction ps as [| [k' v'] ps IH]; intros acc Hnd; cbn; [reflexivity |].
  inversion Hnd as [| ? ? Hn Hnd']; subst.
  rewrite (IH _ Hnd'), assoc_obj_set.
  destruct (String.eqb_spec k k') as [-> | Hne].
  - now rewrite (assoc_none _ _ Hn).
  - reflexivity.
Qed.

Lemma findTypes_shaped h p ps q L :
  nth_error h p = Some (CObj ps) -> assoc "is" ps = Some (JRef q) ->
  nth_error h q = Some (CArr L) -> findTypes h (JRef p) = Ok (JRef q).
Proof.
  intros Hp Hi Hq. unfold findTypes.
  destruct (length h) as [| n] eqn:Hl.
  - apply length_zero_iff_nil in Hl. subst. destruct p; discriminate.
  - cbn [findTypes_fuel]. unfold isArray, array_elems. rewrite Hp.
    cbn [res_bind get_prop]. rewrite Hp, Hi. cbn [res_bind truthy].
    destruct n; cbn [findTypes_fuel]; unfold isArray, array_elems; rewrite Hq; reflexivity.
Qed.

Lemma accepted_types_shaped h p ps q L :
  nth_error h p = Some (CObj ps) -> assoc "is" ps = Some (JRef q) ->
  nth_error h q = Some (CArr L) -> accepted_types h (JRef p) = Some L.
Proof.
  intros Hp Hi Hq. unfold accepted_types. rewrite (findTypes_shaped _ _ _ _ _ Hp Hi Hq).
  cbn. rewrite Hq. reflexivity.
Qed.
Lemma set_nth_second2 (a b c : cell) : set_nth 1 c [a; b] = [a; c].
Proof. reflexivity. Qed.

Lemma set_nth_second3 (a b c d : cell) : set_nth 1 c [a; b; d] = [a; c; d].
Proof. reflexivity. Qed.

Lemma optional_eq r h :
  optional r h =
  let n := length h in
  let hb := (h ++ [CArr []; CObj [("is", JRef n)]])%list in
  match merge_descriptor hb [r] [] with
  | Ok d =>
      let P := put_all d [("is", JRef n)] in
      let hc := (h ++ [CArr []; CObj P])%list in
      match findTypes hc (JRef (S n)) with
      | Ok found =>
          match array_receiver hc found "filter" with
          | Ok ts => ((h ++ [CArr []; CObj (obj_set "is" (JRef (S (S n))) P);
                             CArr (filter isTruthyType ts ++ [JStr "undefined"; JStr "null"])])%list,
                      Ok (JRef (S n)))
          | Throw e => (hc, Throw e)
          end
      | Throw e => (hc, Throw e)
      end
  | Throw e => (hb, Throw e)
  end.
Proof.
  unfold optional, merge, bind, alloc, get_heap, lift, set_prop, ret.
  rewrite <- app_assoc. cbn [app].
  assert (E1 : length (h ++ [CArr []])%list = S (length h)) by (rewrite length_app; cbn; lia).
  rewrite E1. cbv zeta.
  assert (Hb : nth_error (h ++ [CArr []; CObj [("is", JRef (length h))]])%list (S (length h))
               = Some (CObj [("is", JRef (length h))])).
  { rewrite nth_error_app2 by lia. replace (S (length h) - length h) with 1 by lia. reflexivity. }
  destruct (merge_descriptor (h ++ [CArr []; CObj [("is", JRef (length h))]])%list [r] [])
    as [d|e]; cbv beta iota; [| reflexivity].
  rewrite Hb.
  rewrite set_nth_app_r by lia. replace (S (length h) - length h) with 1 by lia.
  rewrite set_nth_second2.
  destruct (findTypes (h ++ [CArr []; CObj (put_all d [("is", JRef (length h))])])%list
              (JRef (S (length h)))) as [found|e]; [| reflexivity].
  destruct (array_receiver (h ++ [CArr []; CObj (put_all d [("is", JRef (length h))])])%list
              found "filter") as [ts|e]; [| reflexivity].
  rewrite <- app_assoc. cbn [app].
  rewrite nth_error_app2 by lia. replace (S (length h) - length h) with 1 by lia. cbn [nth_error].
  rewrite set_nth_app_r by lia. replace (S (length h) - length h) with 1 by lia.
  rewrite set_nth_second3.
  rewrite length_app. cbn [length]. replace (length h + 2) with (S (S (length h))) by lia.
  reflexivity.
Qed.

Lemma nth_error_app_3 (h : heap) a b c :
  nth_error (h ++ [a; b; c])%list (length h) = Some a /\
  nth_error (h ++ [a; b; c])%list (S (length h)) = Some b /\
  nth_error (h ++ [a; b; c])%list (S (S (length h))) = Some c.
Proof.
  rewrite !nth_error_app2 by lia.
  rewrite Nat.sub_diag. replace (S (length h) - length h) with 1 by lia.
  replace (S (S (length h)) - length h) with 2 by lia. auto.
Qed.

Lemma assoc_obj_set_eq k v ps : assoc k (obj_set k v ps) = Some v.
Proof. rewrite assoc_obj_set, String.eqb_refl. reflexivity. Qed.

Lemma nodup_single (k : string) (v : jsval) : NoDup (map fst [(k, v)]).
Proof. constructor; [intros [] | constructor]. Qed.

Lemma optional_cases r h h1 out :
  optional r h = (h1, out) ->
  (exists ext, h1 = (h ++ ext)%list) /\
  (forall r1, out = Ok r1 -> exists p q ps ts, r1 = JRef p /\ length h <= p /\ length h <= q /\
     nth_error h1 p = Some (CObj ps) /\ NoDup (map fst ps) /\ assoc "is" ps = Some (JRef q) /\
     nth_error h1 q = Some (CArr (filter isTruthyType ts ++ [JStr "undefined"; JStr "null"]))).
Proof.
  rewrite optional_eq. cbv zeta.
  destruct (merge_descriptor _ [r] []) as [d|e];
    [| intros H; injection H as <- <-; split; [eexists; reflexivity | discriminate]].
  destruct (findTypes _ (JRef (S (length h)))) as [found|e];
    [| intros H; injection H as <- <-; split; [eexists; reflexivity | discriminate]].
  destruct (array_receiver _ found "filter") as [ts|e];
    [| intros H; injection H as <- <-; split; [eexists; reflexivity | discriminate]].
  intros H; injection H as <- <-. split; [eexists; reflexivity |].
  intros r1 E. injection E as <-.
  destruct (nth_error_app_3 h (CArr [])
              (CObj (obj_set "is" (JRef (S (S (length h)))) (put_all d [("is", JRef (length h))])))
              (CArr (filter isTruthyType ts ++ [JStr "undefined"; JStr "null"])))
    as (_ & Hp & Hq).
  exists (S (length h)), (S (S (length h))),
    (obj_set "is" (JRef (S (S (length h)))) (put_all d [("is", JRef (length h))])), ts.
  split; [reflexivity |]. split; [lia |]. split; [lia |]. split; [exact Hp |].
  split; [apply obj_set_nodup, put_all_nodup, nodup_single |].
  split; [apply assoc_obj_set_eq | exact Hq].
Qed.

Lemma optional_on_shaped h p ps q L :
  nth_error h p = Some (CObj ps) -> NoDup (map fst ps) -> assoc "is" ps = Some (JRef q) ->
  nth_error h q = Some (CArr L) ->
  exists h' ps', optional (JRef p) h = (h', Ok (JRef (S (length h)))) /\
    nth_error h' (S (length h)) = Some (CObj ps') /\ NoDup (map fst ps') /\
    assoc "is" ps' = Some (JRef (S (S (length h)))) /\
    nth_error h' (S (S (length h))) = Some (CArr (filter isTruthyType L ++ [JStr "undefined"; JStr "null"])).
Proof.
  intros Hp Hnd Hi Hq.
  assert (Hpl : p < length h) by (apply nth_error_Some; congruence).
  assert (Hql : q < length h) by (apply nth_error_Some; congruence).
  rewrite optional_eq. cbv zeta.
  cbn [merge_descriptor truthy]. unfold own_props.
  rewrite nth_error_app1 by exact Hpl. rewrite Hp. cbn [res_bind merge_descriptor].
  set (P := put_all (put_all ps []) [("is", JRef (length h))]).
  assert (HP : assoc "is" P = Some (JRef q)).
  { unfold P. rewrite assoc_put_all by (apply put_all_nodup; constructor).
    rewrite assoc_put_all by exact Hnd. rewrite Hi. reflexivity. }
  assert (Hc : nth_error (h ++ [CArr []; CObj P])%list (S (length h)) = Some (CObj P)).
  { rewrite nth_error_app2 by lia. replace (S (length h) - length h) with 1 by lia. reflexivity. }
  assert (Hcq : nth_error (h ++ [CArr []; CObj P])%list q = Some (CArr L))
    by (rewrite nth_error_app1 by exact Hql; exact Hq).
  rewrite (findTypes_shaped _ _ _ _ _ Hc HP Hcq).
  unfold array_receiver, array_elems. rewrite Hcq.
  destruct (nth_error_app_3 h (CArr []) (CObj (obj_set "is" (JRef (S (S (length h)))) P))
              (CArr (filter isTruthyType L ++ [JStr "undefined"; JStr "null"])))
    as (_ & H1 & H2).
  do 2 eexists. split; [reflexivity |]. split; [exact H1 |].
  split; [apply obj_set_nodup; unfold P; apply put_all_nodup; constructor; [intros [] | constructor] |].
  split; [apply assoc_obj_set_eq | exact H2].
Qed.

Lemma filter_truthy_idem ts :
  filter isTruthyType (filter isTruthyType ts ++ [JStr "undefined"; JStr "null"])
  = filter isTruthyType ts.
Proof.
  rewrite filter_app. cbn. rewrite app_nil_r.
  induction ts as [| t ts IH]; cbn; [reflexivity |].
  destruct (isTruthyType t) eqn:E; cbn; [rewrite E, IH | exact IH]; reflexivity.
Qed.

Lemma count_tag_once ts tag :
  In tag ["undefined"; "null"] ->
  length (filter (fun t => strict_eq t (JStr tag))
            (filter isTruthyType ts ++ [JStr "undefined"; JStr "null"])) = 1.
Proof.
  intros Htag. rewrite filter_app.
  assert (E : filter (fun t => strict_eq t (JStr tag)) (filter isTruthyType ts) = []).
  { induction ts as [| t ts IH]; cbn; [reflexivity |].
    destruct (isTruthyType t) eqn:Ht; cbn; [| exact IH].
    destruct (strict_eq t (JStr tag)) eqn:Es; [| exact IH].
    apply strict_eq_spec in Es. subst t.
    destruct Htag as [<- | [<- | []]]; discriminate. }
  rewrite E. destruct Htag as [<- | [<- | []]]; reflexivity.
Qed.

(** C9: applying [optional] to the result of [optional] succeeds and gives
    the same accepted-type set, in which "undefined" and "null" each occur
    exactly once. *)
Theorem optional_idempotent h r h1 r1 :
  optional r h = (h1, Ok r1) ->
  exists h2 r2 L, optional r1 h1 = (h2, Ok r2) /\
    accepted_types h1 r1 = Some L /\ accepted_types h2 r2 = Some L /\
    length (filter (fun t => strict_eq t (JStr "undefined")) L) = 1 /\
    length (filter (fun t => strict_eq t (JStr "null")) L) = 1.
Proof.
  intros H. destruct (optional_cases _ _ _ _ H) as [_ Hshape].
  destruct (Hshape r1 eq_refl) as (p & q & ps & ts & -> & _ & _ & Hp & Hnd & Hi & Hq).
  destruct (optional_on_shaped _ _ _ _ _ Hp Hnd Hi Hq) as (h2 & ps' & H2 & Hp' & _ & Hi' & Hq').
  rewrite filter_truthy_idem in Hq'.
  exists h2, (JRef (S (length h1))), (filter isTruthyType ts ++ [JStr "undefined"; JStr "null"])%list.
  split; [exact H2 |].
  split; [exact (accepted_types_shaped _ _ _ _ _ Hp Hi Hq) |].
  split; [exact (accepted_types_shaped _ _ _ _ _ Hp' Hi' Hq') |].
  split; apply count_tag_once; cbn; auto.
Qed.

Lemma optional_idempotent_witness :
  exists h1 r1, optional (JRef 1) heap_string_req = (h1, Ok r1) /\
  exists h2 r2 L, optional r1 h1 = (h2, Ok r2) /\
    accepted_types h1 r1 = Some L /\ accepted_types h2 r2 = Some L /\
    length (filter (fun t => strict_eq t (JStr "undefined")) L) = 1 /\
    length (filter (fun t => strict_eq t (JStr "null")) L) = 1.
Proof.
  eexists; eexists. split; [reflexivity |].
  apply (optional_idempotent heap_string_req (JRef 1)). reflexivity.
Defined.

Lemma required_eq r h :
  required r h =
  match findTypes h r with
  | Ok found =>
      match (if truthy found then array_receiver h found "filter"
             else Ok (map JStr VALID_TYPES)) with
      | Ok base =>
          let n := length h in
          let hb := (h ++ [CArr (filter isTruthyType base); CObj []; CObj [("is", JRef n)]])%list in
          match merge_descriptor hb [r; JRef (S (S n))] [] with
          | Ok d => ((h ++ [CArr (filter isTruthyType base); CObj (put_all d []);
                            CObj [("is", JRef n)]])%list, Ok (JRef (S n)))
          | Throw e => (hb, Throw e)
          end
      | Throw e => (h, Throw e)
      end
  | Throw e => (h, Throw e)
  end.
Proof.
  unfold required, merge, bind, alloc, get_heap, lift.
  destruct (findTypes h r) as [found|e]; [| reflexivity].
  destruct (if truthy found then array_receiver h found "filter" else Ok (map JStr VALID_TYPES))
    as [base|e]; [| reflexivity].
  rewrite <- !app_assoc. cbn [app].
  assert (E1 : length (h ++ [CArr (filter isTruthyType base)])%list = S (length h))
    by (rewrite length_app; cbn; lia).
  assert (E2 : length (h ++ [CArr (filter isTruthyType base); CObj []])%list = S (S (length h)))
    by (rewrite length_app; cbn; lia).
  rewrite E1, E2. cbv zeta.
  destruct (merge_descriptor _ [r; JRef (S (S (length h)))] []) as [d|e]; [| reflexivity].
  destruct (nth_error_app_3 h (CArr (filter isTruthyType base)) (CObj [])
              (CObj [("is", JRef (length h))])) as (_ & Hb & _).
  rewrite Hb. rewrite set_nth_app_r by lia.
  replace (S (length h) - length h) with 1 by lia. rewrite set_nth_second3.
  reflexivity.
Qed.

Lemma required_descriptor hb r x n d :
  nth_error hb x = Some (CObj [("is", JRef n)]) ->
  merge_descriptor hb [r; JRef x] [] = Ok d ->
  NoDup (map fst d) /\ assoc "is" d = Some (JRef n).
Proof.
  intros Hx. cbn [merge_descriptor].
  assert (Hlast : forall acc, NoDup (map fst acc) ->
            merge_descriptor hb [JRef x] acc = Ok d -> NoDup (map fst d) /\ assoc "is" d = Some (JRef n)).
  { intros acc Hnd. cbn [merge_descriptor truthy]. unfold own_props. rewrite Hx.
    cbn [res_bind merge_descriptor]. intros H. injection H as <-.
    split; [apply obj_set_nodup, Hnd | apply assoc_obj_set_eq]. }
  destruct (truthy r).
  - destruct (own_props hb r) as [o|e]; cbn [res_bind]; [| discriminate].
    apply Hlast. apply put_all_nodup. constructor.
  - apply Hlast. constructor.
Qed.

Lemma either_eq rs h :
  either rs h =
  match map_res (findTypes h) rs with
  | Ok arrays =>
      match concat_apply h arrays with
      | Ok combined => ((h ++ [CArr (union_reduce [] combined)])%list, Ok (JRef (length h)))
      | Throw e => (h, Throw e)
      end
  | Throw e => (h, Throw e)
  end.
Proof.
  unfold either, union, bind, get_heap, lift, alloc, ret.
  destruct (map_res (findTypes h) rs) as [arrays|e]; [| reflexivity].
  destruct (concat_apply h arrays) as [c|e]; reflexivity.
Qed.

(** C10: [required], [optional] and [either] change no cell that existed
    before the call (so neither the argument requirements' own properties
    nor any tag array reachable from them), and the tag array of what they
    return is a cell allocated by the call itself. *)
Theorem combinators_do_not_mutate h r rs :
  preserves_and_fresh h (required r h) /\
  preserves_and_fresh h (optional r h) /\
  preserves_and_fresh h (either rs h).
Proof.
  split; [| split].
  - rewrite required_eq.
    destruct (findTypes h r) as [found|e]; [| split; [exists []; rewrite app_nil_r; reflexivity | exact I]].
    destruct (if truthy found then array_receiver h found "filter" else Ok (map JStr VALID_TYPES))
      as [base|e]; [| split; [exists []; rewrite app_nil_r; reflexivity | exact I]].
    cbv zeta.
    destruct (merge_descriptor _ [r; JRef (S (S (length h)))] []) as [d|e] eqn:Hd;
      [| split; [eexists; reflexivity | exact I]].
    cbn [preserves_and_fresh]. split; [eexists; reflexivity |].
    destruct (nth_error_app_3 h (CArr (filter isTruthyType base)) (CObj [])
                (CObj [("is", JRef (length h))])) as (_ & _ & Hx).
    destruct (required_descriptor _ _ _ _ _ Hx Hd) as [Hnd Hi].
    destruct (nth_error_app_3 h (CArr (filter isTruthyType base)) (CObj (put_all d []))
                (CObj [("is", JRef (length h))])) as (Hq & Hp & _).
    right. exists (S (length h)), (put_all d []), (length h), (filter isTruthyType base).
    split; [reflexivity |]. split; [lia |]. split; [exact Hp |].
    split; [rewrite assoc_put_all by exact Hnd; rewrite Hi; reflexivity |].
    split; [lia | exact Hq].
  - destruct (optional r h) as [h1 out] eqn:Ho.
    destruct (optional_cases _ _ _ _ Ho) as [Hext Hshape].
    cbn [preserves_and_fresh]. split; [exact Hext |].
    destruct out as [r1|e]; [| exact I].
    destruct (Hshape r1 eq_refl) as (p & q & ps & ts & -> & Hpl & Hql & Hp & _ & Hi & Hq).
    right. exists p, ps, q, (filter isTruthyType ts ++ [JStr "undefined"; JStr "null"])%list.
    auto 7.
  - rewrite either_eq.
    destruct (map_res (findTypes h) rs) as [arrays|e];
      [| split; [exists []; rewrite app_nil_r; reflexivity | exact I]].
    destruct (concat_apply h arrays) as [c|e]; [| split; [exists []; rewrite app_nil_r; reflexivity | exact I]].
    cbn [preserves_and_fresh]. split; [eexists; reflexivity |].
    left. exists (length h), (union_reduce [] c). split; [reflexivity |].
    split; [lia | apply nth_error_snoc].
Qed.

(** ** Instances of the theorems on concrete inputs *)

Lemma transform_failure_falls_back_witness :
  presence heap_map_throws (JRef 0) "foo" (JRef 2) = Ok (true, JNum 3) /\
  get_prop heap_map_throws (JRef 2) "map" = Ok (JRef 1) /\ truthy (JRef 1) = true /\
  exists tr', validate_key example_call heap_map_throws (JRef 0) "foo" (JRef 2) [] []
              = after_map example_call heap_map_throws "foo" (JRef 2) true (JNum 3) true [] tr'.
Proof.
  split; [reflexivity | split; [reflexivity | split; [reflexivity |]]].
  apply (proj2 (transform_failure_falls_back example_call heap_map_throws (JRef 0) "foo" (JRef 2)
                  [] (JRef 1) true (JNum 3) [] eq_refl eq_refl eq_refl) (UserError JUndef)).
  - reflexivity.
  - intros k' m E. discriminate E.
  - intros w E. discriminate E.
Defined.

Lemma validateOptions_result_keys_witness :
  nth_error heap_nonempty 4 = Some (CObj [("foo", JRef 1); ("bar", JRef 2); ("baz", JRef 3)]) /\
  validateOptions example_call heap_nonempty (JRef 0) (JRef 4) []
  = ([], Ok [("foo", JNum 123); ("bar", JNum 456)]) /\
  forall k, In k (map fst [("foo", JNum 123); ("bar", JNum 456)]) <->
            exists req, In (k, req) [("foo", JRef 1); ("bar", JRef 2); ("baz", JRef 3)] /\
                        included_by_spec example_call heap_nonempty (JRef 0) k req.
Proof.
  split; [reflexivity | split; [reflexivity |]].
  apply (validateOptions_result_keys example_call heap_nonempty (JRef 0) 4
           [("foo", JRef 1); ("bar", JRef 2); ("baz", JRef 3)] [] []); reflexivity.
Defined.

Lemma default_when_absent_or_undefined_witness :
  has_prop heap_dflt_absent (JRef 1) "dflt" = Ok true /\
  in_options heap_dflt_absent (JRef 0) "foo" = Ok false /\
  presence heap_dflt_absent (JRef 0) "foo" (JRef 1) = Ok (true, JNum 1) /\
  (forall f tr tr' res, get_prop heap_dflt_absent (JRef 1) "map" = Ok f -> truthy f = false ->
     validateOptions example_call heap_dflt_absent (JRef 0) (JRef 2) tr = (tr', Ok res) ->
     assoc "foo" res = Some (JNum 1)).
Proof.
  split; [reflexivity | split; [reflexivity |]].
  apply (default_when_absent_or_undefined example_call heap_dflt_absent (JRef 0) 2
           [("foo", JRef 1)] "foo" (JRef 1) (JNum 1) JUndef).
  - reflexivity.
  - constructor; [intros [] | constructor].
  - left. reflexivity.
  - reflexivity.
  - reflexivity.
  - right. split; reflexivity.
Defined.




(** ** Further properties of the module *)

Section Options.
Variable call : nat -> jsval -> res jsval.

Lemma presence_falsy_options h o l k r :
  truthy o = false -> nth_error h l = Some (CObj []) ->
  presence h o k r = presence h (JRef l) k r.
Proof.
  intros Ho Hl. unfold presence, in_options. rewrite Ho. cbn [truthy]. unfold has_prop.
  rewrite Hl. reflexivity.
Qed.

Lemma validate_all_same_presence h o o' ps acc tr :
  (forall k r, In (k, r) ps -> presence h o k r = presence h o' k r) ->
  validate_all call h o ps acc tr = validate_all call h o' ps acc tr.
Proof.
  revert acc tr. induction ps as [| [k r] ps IH]; intros acc tr Hp; cbn [validate_all];
    [reflexivity |].
  assert (Hk : validate_key call h o k r acc tr = validate_key call h o' k r acc tr).
  { unfold validate_key, bind, lift. rewrite (Hp k r (or_introl eq_refl)). reflexivity. }
  unfold bind at 1 2. rewrite Hk.
  destruct (validate_key call h o' k r acc tr) as [tr1 [acc1|e]]; [| reflexivity].
  apply IH. intros k' r' Hin. apply Hp. right. exact Hin.
Qed.

End Options.

(** validateOptions treats a falsy [options] (undefined, null, false, 0,
    the empty string) exactly as an empty object. *)
Theorem validateOptions_falsy_options call h o l reqs tr :
  truthy o = false -> nth_error h l = Some (CObj []) ->
  validateOptions call h o reqs tr = validateOptions call h (JRef l) reqs tr.
Proof.
  intros Ho Hl. unfold validateOptions, bind at 1 2, lift at 1 2.
  destruct (requirement_entries h reqs) as [ps|e]; [| reflexivity].
  apply validate_all_same_presence. intros k r _. exact (presence_falsy_options _ _ _ _ _ Ho Hl).
Qed.

Lemma join_strings sep ts :
  (forall t, In t ts -> In t (map JStr VALID_TYPES)) -> exists s, join sep ts = Ok s.
Proof.
  induction ts as [| t ts IH]; intros Hv; [exists EmptyString; reflexivity |].
  assert (Ht : exists s, t = JStr s).
  { destruct (proj1 (in_map_iff _ _ _) (Hv t (or_introl eq_refl))) as (s & <- & _). eauto. }
  destruct Ht as [s ->].
  destruct ts as [| t' ts'] eqn:E; [exists s; reflexivity |].
  destruct IH as [r Hr]; [intros x Hx; apply Hv; right; exact Hx |].
  exists (s ++ sep ++ r). change (join sep (JStr s :: t' :: ts'))
    with (res_bind (elem_string (JStr s)) (fun s0 => res_bind (join sep (t' :: ts'))
                                                         (fun r0 => Ok (s0 ++ sep ++ r0)))).
  rewrite Hr. reflexivity.
Qed.

Lemma indexOf_in l x : In x l -> Z.ltb (indexOf l x) 0 = false.
Proof.
  intros H. destruct (indexOf_cases l x) as [[_ Hn] | [Hi _]]; [contradiction |].
  apply Z.ltb_ge. exact Hi.
Qed.

Lemma indexOf_not_in l x : ~ In x l -> Z.ltb (indexOf l x) 0 = true.
Proof. intros H. apply indexOf_absent in H. rewrite H. reflexivity. Qed.

(** A requirement that only declares [is] as an array of recognised type
    names accepts exactly the values whose getTypeOf is in that array: the
    key is then kept when it is in [options], and no function is called;
    any other value raises a RequirementError whose message lists the
    type names. *)
Theorem is_only_requirement call h options k lr ps is ts kin v0 acc tr :
  nth_error h lr = Some (CObj ps) ->
  assoc "map" ps = None -> assoc "ok" ps = None -> assoc "dflt" ps = None ->
  assoc "msg" ps = None -> assoc "is" ps = Some is -> array_elems h is = Some ts ->
  (forall t, In t ts -> In t (map JStr VALID_TYPES)) ->
  in_options h options k = Ok kin ->
  (if kin then get_prop h options k else Ok JUndef) = Ok v0 ->
  (In (JStr (getTypeOf h v0)) ts ->
   validate_key call h options k (JRef lr) acc tr
   = (tr, Ok (if kin then obj_set k v0 acc else acc))) /\
  (~ In (JStr (getTypeOf h v0)) ts ->
   exists s, join ", " ts = Ok s /\
   validate_key call h options k (JRef lr) acc tr
   = (tr, Throw (RequirementError k (JStr (("The option " ++ dq ++ k ++ dq ++ " ") ++
                                             "must be one of the following types: " ++ s))))).
Proof.
  intros Hl Hm Hok Hd Hmsg His Hts Hvalid Hin Hv0.
  assert (G : forall n, get_prop h (JRef lr) n = Ok (match assoc n ps with Some x => x | None => JUndef end))
    by (intros n; cbn; rewrite Hl; reflexivity).
  assert (Hp : presence h options k (JRef lr) = Ok (kin, v0)).
  { unfold presence. rewrite Hin. cbn [res_bind]. rewrite Hv0. cbn [res_bind has_prop].
    rewrite Hl, Hd. reflexivity. }
  assert (Hct := check_types_tags h k (JRef lr) v0 is ts).
  rewrite G, His in Hct. specialize (Hct eq_refl (or_introl Hts)).
  rewrite (check_type_names_valid ts Hvalid) in Hct. cbn [res_bind] in Hct.
  assert (Hvk : validate_key call h options k (JRef lr) acc tr =
                 match check_types h k (JRef lr) v0 with
                 | Ok _ => (tr, Ok (if kin then obj_set k v0 acc else acc))
                 | Throw e => (tr, Throw e)
                 end).
  { unfold validate_key, apply_map, after_map, check_ok, include, bind, lift, ret.
    rewrite Hp. rewrite !G, Hm, Hok. cbn [truthy andb res_bind].
    destruct (check_types h k (JRef lr) v0); [| reflexivity].
    rewrite orb_false_r. destruct kin; reflexivity. }
  rewrite Hvk, Hct. split.
  - intros Hin'. rewrite (indexOf_in _ _ Hin'). reflexivity.
  - intros Hnin. rewrite (indexOf_not_in _ _ Hnin).
    destruct (join_strings ", " ts Hvalid) as [s Hs]. exists s. split; [exact Hs |].
    unfold new_RequirementError. rewrite G, Hmsg. cbn [res_bind truthy]. rewrite G, His.
    cbn [res_bind]. assert (truthy is = true) as -> by (destruct is; try discriminate; reflexivity).
    unfold array_receiver. rewrite Hts. cbn [res_bind]. rewrite Hs. reflexivity.
Qed.

Section ResultValues.
Variable call : nat -> jsval -> res jsval.

Lemma validate_key_value h o k r acc tr tr' acc' :
  validate_key call h o k r acc tr = (tr', Ok acc') ->
  acc' = acc \/ exists v1 iso tr1 tr2, acc' = obj_set k v1 acc /\
    check_types h k r v1 = Ok iso /\ check_ok call h k r iso v1 tr1 = (tr2, Ok tt).
Proof.
  intros H. unfold validate_key, bind at 1, lift at 1 in H.
  destruct (presence h o k r) as [[kin v0]|e]; [| discriminate].
  cbv beta iota in H. unfold bind at 1 in H.
  destruct (apply_map call h k r v0 tr) as [tr1 [[v1 mt]|e]]; [| discriminate].
  unfold after_map, bind, lift in H.
  destruct (check_types h k r v1) as [iso|e] eqn:Hct; [| discriminate].
  destruct (check_ok call h k r iso v1 tr1) as [tr2 [[]|e]] eqn:Hok; [| discriminate].
  unfold include in H.
  destruct (get_prop h r "map") as [m|e]; cbn in H; [| discriminate].
  destruct (kin || (truthy m && negb mt && negb (is_undefined v1))); injection H as _ <-.
  - right. exists v1, iso, tr1, tr2. auto.
  - left. reflexivity.
Qed.

Lemma validate_all_value h o ps acc tr tr' res k R v :
  NoDup (map fst ps) -> In (k, R) ps -> assoc k acc = None ->
  validate_all call h o ps acc tr = (tr', Ok res) -> assoc k res = Some v ->
  exists iso tr1 tr2, check_types h k R v = Ok iso /\ check_ok call h k R iso v tr1 = (tr2, Ok tt).
Proof.
  revert acc tr. induction ps as [| [k' r] ps IH]; intros acc tr Hnd Hin Hacc H Hv;
    [destruct Hin |].
  cbn in H. unfold bind at 1 in H.
  destruct (validate_key call h o k' r acc tr) as [tr1 [acc1|e]] eqn:Hk; [| discriminate].
  cbn in Hnd. inversion Hnd as [| ? ? Hnotin Hnd']. subst.
  destruct (String.eqb_spec k k') as [-> | Hne].
  - assert (R = r).
    { destruct Hin as [E | E]; [injection E as ->; reflexivity |].
      exfalso. apply Hnotin. apply (in_map fst) in E. exact E. }
    subst R.
    rewrite (validate_all_other _ _ _ _ _ _ _ _ _ Hnotin H) in Hv.
    destruct (validate_key_value _ _ _ _ _ _ _ _ Hk) as [-> | (v1 & iso & t1 & t2 & -> & Hc & Ho)].
    + congruence.
    + rewrite assoc_obj_set, String.eqb_refl in Hv. injection Hv as <-. eauto.
  - destruct Hin as [E | Hin]; [injection E as -> _; contradiction |].
    refine (IH _ _ Hnd' Hin _ H Hv).
    destruct (validate_key_value _ _ _ _ _ _ _ _ Hk) as [-> | (v1 & iso & t1 & t2 & -> & _ & _)];
      [exact Hacc |].
    rewrite assoc_obj_set. apply String.eqb_neq in Hne. rewrite Hne. exact Hacc.
Qed.

End ResultValues.

(** Every value in the result of validateOptions passed its key's type
    check: when the requirement declares in [is] (directly, or one [.is]
    further down) a tag array, the value's getTypeOf is in it. *)
Theorem result_values_have_accepted_type call h options lreq ps tr tr' res k R v is ts :
  nth_error h lreq = Some (CObj ps) -> NoDup (map fst ps) -> In (k, R) ps ->
  validateOptions call h options (JRef lreq) tr = (tr', Ok res) -> assoc k res = Some v ->
  get_prop h R "is" = Ok is ->
  (array_elems h is = Some ts \/
   exists inner, isArray h is = false /\ get_prop h is "is" = Ok inner /\
                 array_elems h inner = Some ts) ->
  In (JStr (getTypeOf h v)) ts.
Proof.
  intros Hl Hnd Hin H Hv His Hts.
  unfold validateOptions, bind at 1, lift at 1, requirement_entries in H. rewrite Hl in H.
  destruct (validate_all_value _ _ _ _ _ _ _ _ _ _ _ Hnd Hin (eq_refl : assoc k [] = None) H Hv)
    as (iso & t1 & t2 & Hct & _).
  rewrite (check_types_tags h k R v is ts His Hts) in Hct. cbn zeta in Hct.
  destruct (check_type_names ts); cbn [res_bind] in Hct; [| discriminate].
  destruct (indexOf_cases ts (JStr (getTypeOf h v))) as [[E _] | [_ Hi]]; [| exact Hi].
  rewrite E in Hct. cbn in Hct. destruct (new_RequirementError h k R); discriminate.
Qed.

(** Every value in the result of validateOptions satisfied its key's
    predicate: when [ok] is a function, it returned a truthy value on the
    value, unless the value is null or undefined and the type check
    classified the requirement as optional. *)
Theorem result_values_satisfy_predicate call h options lreq ps tr tr' res k R v l id :
  nth_error h lreq = Some (CObj ps) -> NoDup (map fst ps) -> In (k, R) ps ->
  validateOptions call h options (JRef lreq) tr = (tr', Ok res) -> assoc k res = Some v ->
  get_prop h R "ok" = Ok (JRef l) -> nth_error h l = Some (CFun id) ->
  (exists b, call id v = Ok b /\ truthy b = true) \/
  (is_nullish v = true /\ check_types h k R v = Ok true).
Proof.
  intros Hl Hnd Hin H Hv Hok Hf.
  unfold validateOptions, bind at 1, lift at 1, requirement_entries in H. rewrite Hl in H.
  destruct (validate_all_value _ _ _ _ _ _ _ _ _ _ _ Hnd Hin (eq_refl : assoc k [] = None) H Hv)
    as (iso & t1 & t2 & Hct & Hc).
  unfold check_ok, bind, lift in Hc. rewrite Hok in Hc. cbn [truthy andb] in Hc.
  destruct (negb iso || negb (is_nullish v)) eqn:Hcond.
  - unfold call_fn in Hc. rewrite Hf in Hc. unfold call_js in Hc. rewrite Hf in Hc.
    left. destruct (call id v) as [b|e]; [| discriminate].
    exists b. split; [reflexivity |].
    destruct (truthy b); [reflexivity |].
    cbn in Hc. destruct (new_RequirementError h k R); discriminate.
  - right. apply orb_false_iff in Hcond as [Hi Hn].
    apply negb_false_iff in Hi, Hn. subst iso. auto.
Qed.

Lemma union_reduce_in r xs x : In x (union_reduce r xs) <-> In x r \/ In x xs.
Proof.
  revert r. induction xs as [| y xs IH]; intros r; cbn [union_reduce].
  - cbn. tauto.
  - rewrite IH. destruct (Z.eqb_spec (indexOf r y) (-1)) as [E | E].
    + rewrite in_app_iff. cbn. tauto.
    + assert (In y r) by (destruct (indexOf_cases r y) as [[? _] | [_ ?]];
                           [contradiction | assumption]).
      cbn. split; [tauto |]. intros [? | [<- | ?]]; tauto.
Qed.

Lemma union_reduce_nodup r xs : NoDup r -> NoDup (union_reduce r xs).
Proof.
  revert r. induction xs as [| y xs IH]; intros r Hr; cbn [union_reduce]; [exact Hr |].
  apply IH. destruct (Z.eqb_spec (indexOf r y) (-1)) as [E | _]; [| exact Hr].
  apply indexOf_absent in E. apply NoDup_app; [exact Hr | constructor; [intros [] | constructor] |].
  intros a Ha [<- | []]. exact (E Ha).
Qed.

Lemma flat_map_spread h l : (forall x, In x l -> array_elems h x = None) -> flat_map (spread h) l = l.
Proof.
  induction l as [| x l IH]; intros Hx; cbn; [reflexivity |].
  unfold spread at 1. rewrite (Hx x (or_introl eq_refl)). cbn. f_equal.
  apply IH. intros y Hy. apply Hx. right. exact Hy.
Qed.

(** [either(a, b)], where [a] and [b] resolve through findTypes to arrays
    (the second one holding no arrays, as a tag array of strings), returns
    a new array holding each element of the two exactly once. *)
Theorem either_two_union h a b ta tb La Lb :
  findTypes h a = Ok ta -> array_elems h ta = Some La ->
  findTypes h b = Ok tb -> array_elems h tb = Some Lb ->
  (forall x, In x Lb -> array_elems h x = None) ->
  exists L, either [a; b] h = ((h ++ [CArr L])%list, Ok (JRef (length h))) /\ NoDup L /\
    (forall x, In x L <-> In x La \/ In x Lb).
Proof.
  intros Ha Hla Hb Hlb Hx. rewrite either_eq. cbn [map_res]. rewrite Ha, Hb. cbn [res_bind].
  unfold concat_apply. cbv beta iota zeta.
  destruct ta; try discriminate Hla. destruct tb; try discriminate Hlb.
  cbn [concat_this list_from_array_like]. rewrite Hla, Hlb. cbn [res_bind].
  rewrite (flat_map_spread _ _ Hx).
  eexists. split; [reflexivity |]. split; [apply union_reduce_nodup; constructor |].
  intros x. rewrite union_reduce_in, in_app_iff. cbn. tauto.
Qed.

(** [either(a)] with one argument resolving to an array returns a new
    array holding each of its elements exactly once. *)
Theorem either_one_argument h a ta La :
  findTypes h a = Ok ta -> array_elems h ta = Some La ->
  exists L, either [a] h = ((h ++ [CArr L])%list, Ok (JRef (length h))) /\ NoDup L /\
    (forall x, In x L <-> In x La).
Proof.
  intros Ha Hla. rewrite either_eq. cbn [map_res]. rewrite Ha. cbn [res_bind].
  unfold concat_apply. cbv beta iota zeta.
  destruct ta; try discriminate Hla.
  cbn [concat_this list_from_array_like]. rewrite Hla. cbn [res_bind flat_map].
  eexists. split; [reflexivity |]. split; [apply union_reduce_nodup; constructor |].
  intros x. rewrite union_reduce_in, app_nil_r. cbn. tauto.
Qed.

(** [either()] with no argument raises a TypeError ([concat] is applied
    to [undefined]) and allocates nothing. *)
Theorem either_no_arguments h : exists m, either [] h = (h, Throw (TypeError m)).
Proof. rewrite either_eq. cbn. eexists. reflexivity. Qed.

Lemma nth_error_ext (h ext : heap) l c : nth_error h l = Some c -> nth_error (h ++ ext)%list l = Some c.
Proof. intros E. rewrite nth_error_app1; [exact E |]. apply nth_error_Some. congruence. Qed.

Lemma array_elems_ext (h ext : heap) v L : array_elems h v = Some L -> array_elems (h ++ ext)%list v = Some L.
Proof.
  destruct v; try discriminate. cbn.
  destruct (nth_error h l) as [c|] eqn:E; [| discriminate].
  rewrite (nth_error_ext _ _ _ _ E). exact (fun H => H).
Qed.

Lemma findTypes_fuel_ext f (h ext : heap) v t :
  findTypes_fuel f h v = Ok t -> findTypes_fuel f (h ++ ext)%list v = Ok t.
Proof.
  revert v. induction f as [| f IH]; intros v H; [discriminate |].
  revert H. cbn [findTypes_fuel].
  destruct v; try (cbn; exact (fun H => H)).
  unfold isArray, array_elems, get_prop.
  destruct (nth_error h l) as [c|] eqn:E; [| discriminate].
  rewrite (nth_error_ext _ _ _ _ E).
  destruct c; cbn [res_bind]; try discriminate; try (exact (fun H => H)).
  destruct (truthy _); [apply IH | exact (fun H => H)].
Qed.

Lemma findTypes_fuel_mono f f' h v t :
  findTypes_fuel f h v = Ok t -> f <= f' -> findTypes_fuel f' h v = Ok t.
Proof.
  revert f' v. induction f as [| f IH]; intros f' v H Hle; [discriminate |].
  destruct f' as [| f']; [lia |]. revert H. cbn [findTypes_fuel].
  destruct (isArray h v); [exact (fun H => H) |].
  destruct (get_prop h v "is"); cbn [res_bind]; [| discriminate].
  destruct (truthy _); [intros H; apply (IH f'); [exact H | lia] | exact (fun H => H)].
Qed.

(** findTypes on a plain object that it does not stop at continues with
    the object's [is]. *)
Lemma findTypes_obj h p ps t L :
  nth_error h p = Some (CObj ps) -> findTypes h (JRef p) = Ok t -> array_elems h t = Some L ->
  exists x, assoc "is" ps = Some x /\ truthy x = true /\ findTypes_fuel (length h) h x = Ok t.
Proof.
  intros Hp Ht Hl. unfold findTypes in Ht. cbn [findTypes_fuel] in Ht.
  unfold isArray, array_elems at 1, get_prop in Ht. rewrite Hp in Ht. cbn [res_bind] in Ht.
  destruct (assoc "is" ps) as [x|] eqn:Hx.
  - destruct (truthy x) eqn:Htx; [eauto |].
    injection Ht as <-. cbn in Hl. rewrite Hp in Hl. discriminate.
  - cbn in Ht. injection Ht as <-. cbn in Hl. rewrite Hp in Hl. discriminate.
Qed.

Lemma assoc_optional_props n ps x0 :
  NoDup (map fst ps) -> n <> "is" ->
  assoc n (put_all (put_all ps []) [("is", x0)]) = assoc n ps.
Proof.
  intros Hnd Hn. rewrite assoc_put_all by (apply put_all_nodup; constructor).
  rewrite assoc_put_all by exact Hnd. cbn.
  destruct (assoc n ps); [reflexivity |].
  apply String.eqb_neq in Hn. rewrite Hn. reflexivity.
Qed.

Lemma optional_general h p ps t L :
  nth_error h p = Some (CObj ps) -> NoDup (map fst ps) ->
  findTypes h (JRef p) = Ok t -> array_elems h t = Some L ->
  exists h' p' ps', optional (JRef p) h = (h', Ok (JRef p')) /\
    length h <= p' /\ (exists ext, h' = (h ++ ext)%list) /\
    nth_error h' p' = Some (CObj ps') /\ NoDup (map fst ps') /\
    (forall n, n <> "is" -> assoc n ps' = assoc n ps) /\
    accepted_types h' (JRef p') = Some (filter isTruthyType L ++ [JStr "undefined"; JStr "null"])%list.
Proof.
  intros Hp Hnd Ht Hl.
  assert (Hpl : p < length h) by (apply nth_error_Some; congruence).
  destruct (findTypes_obj _ _ _ _ _ Hp Ht Hl) as (x & Hx & Htx & Hf).
  rewrite optional_eq. cbv zeta.
  cbn [merge_descriptor truthy]. unfold own_props.
  rewrite nth_error_app1 by exact Hpl. rewrite Hp. cbn [res_bind merge_descriptor].
  set (P := put_all (put_all ps []) [("is", JRef (length h))]).
  assert (HP : assoc "is" P = Some x).
  { unfold P. rewrite assoc_put_all by (apply put_all_nodup; constructor).
    rewrite assoc_put_all by exact Hnd. rewrite Hx. reflexivity. }
  assert (Hc : nth_error (h ++ [CArr []; CObj P])%list (S (length h)) = Some (CObj P)).
  { rewrite nth_error_app2 by lia. replace (S (length h) - length h) with 1 by lia. reflexivity. }
  assert (Hft : findTypes (h ++ [CArr []; CObj P])%list (JRef (S (length h))) = Ok t).
  { unfold findTypes. cbn [findTypes_fuel]. unfold isArray, array_elems at 1, get_prop.
    rewrite Hc. cbn [res_bind]. rewrite HP, Htx.
    apply findTypes_fuel_mono with (length h); [apply findTypes_fuel_ext; exact Hf |].
    rewrite length_app. cbn. lia. }
  rewrite Hft. unfold array_receiver. rewrite (array_elems_ext _ _ _ _ Hl).
  destruct (nth_error_app_3 h (CArr []) (CObj (obj_set "is" (JRef (S (S (length h)))) P))
              (CArr (filter isTruthyType L ++ [JStr "undefined"; JStr "null"])%list))
    as (_ & H1 & H2).
  do 3 eexists. split; [reflexivity |]. split; [lia |]. split; [eexists; reflexivity |].
  split; [exact H1 |].
  split; [apply obj_set_nodup; unfold P; apply put_all_nodup; apply nodup_single |].
  split.
  - intros n Hn. rewrite assoc_obj_set.
    destruct (String.eqb_spec n "is") as [-> | _]; [contradiction |].
    apply assoc_optional_props; assumption.
  - exact (accepted_types_shaped _ _ _ _ _ H1 (assoc_obj_set_eq _ _ _) H2).
Qed.

Lemma required_general h p ps t L :
  nth_error h p = Some (CObj ps) ->
  findTypes h (JRef p) = Ok t -> array_elems h t = Some L ->
  exists h' p' ps', required (JRef p) h = (h', Ok (JRef p')) /\
    length h <= p' /\ (exists ext, h' = (h ++ ext)%list) /\
    nth_error h' p' = Some (CObj ps') /\ NoDup (map fst ps') /\
    (NoDup (map fst ps) -> forall n, n <> "is" -> assoc n ps' = assoc n ps) /\
    accepted_types h' (JRef p') = Some (filter isTruthyType L).
Proof.
  intros Hp Ht Hl.
  assert (Hpl : p < length h) by (apply nth_error_Some; congruence).
  rewrite required_eq. rewrite Ht.
  assert (Htr : truthy t = true) by (destruct t; try discriminate; reflexivity).
  rewrite Htr. unfold array_receiver. rewrite Hl. cbv zeta.
  cbn [merge_descriptor truthy]. unfold own_props.
  rewrite nth_error_app1 by exact Hpl. rewrite Hp. cbn [res_bind merge_descriptor].
  destruct (nth_error_app_3 h (CArr (filter isTruthyType L)) (CObj [])
              (CObj [("is", JRef (length h))])) as (_ & _ & Hx).
  rewrite Hx. cbn [res_bind merge_descriptor].
  set (d := put_all [("is", JRef (length h))] (put_all ps [])).
  assert (Hnd : NoDup (map fst d)) by (apply put_all_nodup, put_all_nodup; constructor).
  destruct (nth_error_app_3 h (CArr (filter isTruthyType L)) (CObj (put_all d []))
              (CObj [("is", JRef (length h))])) as (Hq & Hr & _).
  do 3 eexists. split; [reflexivity |]. split; [lia |]. split; [eexists; reflexivity |].
  split; [exact Hr |].
  split; [apply put_all_nodup; constructor |].
  split.
  - intros Hnps n Hn. rewrite assoc_put_all by exact Hnd. unfold d.
    rewrite assoc_put_all by apply nodup_single. cbn.
    apply String.eqb_neq in Hn. rewrite Hn.
    rewrite assoc_put_all by exact Hnps. cbn. destruct (assoc n ps); reflexivity.
  - refine (accepted_types_shaped _ _ _ _ _ Hr _ Hq).
    rewrite assoc_put_all by exact Hnd. unfold d.
    rewrite assoc_put_all by apply nodup_single. reflexivity.
Qed.

(** [optional(r)] on a plain object [r] whose type list findTypes
    resolves (directly or through nested [is]) to the array [L] returns a
    new object: a cell allocated by the call, the heap before the call
    being kept as it was.  The object has the other own properties of [r],
    and its accepted set is [L] without "undefined" and "null", followed by
    those two. *)
Theorem optional_accepted_types h p ps L :
  nth_error h p = Some (CObj ps) -> NoDup (map fst ps) -> accepted_types h (JRef p) = Some L ->
  exists h' p' ps', optional (JRef p) h = (h', Ok (JRef p')) /\
    length h <= p' /\ (exists ext, h' = (h ++ ext)%list) /\
    nth_error h' p' = Some (CObj ps') /\ (forall n, n <> "is" -> assoc n ps' = assoc n ps) /\
    accepted_types h' (JRef p') = Some (filter isTruthyType L ++ [JStr "undefined"; JStr "null"])%list.
Proof.
  intros Hp Hnd Ha. unfold accepted_types in Ha.
  destruct (findTypes h (JRef p)) as [t|e] eqn:Ht; [| discriminate].
  destruct (optional_general _ _ _ _ _ Hp Hnd Ht Ha)
    as (h' & p' & ps' & Ho & Hfr & Hext & Hc & _ & Hkeep & Hacc).
  exists h', p', ps'. split; [exact Ho |]. split; [exact Hfr |]. split; [exact Hext |]. auto.
Qed.

(** [required(r)] on a plain object [r] whose type list findTypes
    resolves (directly or through nested [is]) to the array [L] returns a
    new object: a cell allocated by the call, the heap before the call
    being kept as it was.  The object has the other own properties of [r],
    and its accepted set is [L] without "undefined" and "null". *)
Theorem required_accepted_types h p ps L :
  nth_error h p = Some (CObj ps) -> NoDup (map fst ps) -> accepted_types h (JRef p) = Some L ->
  exists h' p' ps', required (JRef p) h = (h', Ok (JRef p')) /\
    length h <= p' /\ (exists ext, h' = (h ++ ext)%list) /\
    nth_error h' p' = Some (CObj ps') /\ (forall n, n <> "is" -> assoc n ps' = assoc n ps) /\
    accepted_types h' (JRef p') = Some (filter isTruthyType L).
Proof.
  intros Hp Hnd Ha. unfold accepted_types in Ha.
  destruct (findTypes h (JRef p)) as [t|e] eqn:Ht; [| discriminate].
  destruct (required_general _ _ _ _ _ Hp Ht Ha)
    as (h' & p' & ps' & Ho & Hfr & Hext & Hc & _ & Hkeep & Hacc).
  exists h', p', ps'. split; [exact Ho |]. split; [exact Hfr |]. split; [exact Hext |]. auto.
Qed.

(** [optional(r)] where [r] is falsy, or a plain object without an [is]
    property, accepts exactly undefined and null. *)
Theorem optional_without_is h r :
  (truthy r = false \/
   exists p ps, r = JRef p /\ nth_error h p = Some (CObj ps) /\ NoDup (map fst ps) /\
                assoc "is" ps = None) ->
  exists h' r', optional r h = (h', Ok r') /\ accepted_types h' r' = Some [JStr "undefined"; JStr "null"].
Proof.
  intros Hr. rewrite optional_eq. cbv zeta.
  assert (Hd : exists d, merge_descriptor (h ++ [CArr []; CObj [("is", JRef (length h))]])%list [r] []
                         = Ok d /\ NoDup (map fst d) /\ assoc "is" d = None).
  { destruct Hr as [Hf | (p & ps & -> & Hp & Hnd & Hi)].
    - exists []. cbn [merge_descriptor]. rewrite Hf. split; [reflexivity |]. split; [constructor | reflexivity].
    - exists (put_all ps []). cbn [merge_descriptor truthy]. unfold own_props.
      rewrite (nth_error_ext _ _ _ _ Hp). split; [reflexivity |].
      split; [apply put_all_nodup; constructor |].
      rewrite assoc_put_all by exact Hnd. rewrite Hi. reflexivity. }
  destruct Hd as (d & Hd & Hnd & Hi). rewrite Hd.
  assert (HP : assoc "is" (put_all d [("is", JRef (length h))]) = Some (JRef (length h)))
    by (rewrite assoc_put_all by exact Hnd; rewrite Hi; reflexivity).
  destruct (nth_error_app_3 h (CArr []) (CObj (put_all d [("is", JRef (length h))])) (CArr []))
    as (Hn & Hc & _).
  assert (Hn' : nth_error (h ++ [CArr []; CObj (put_all d [("is", JRef (length h))])])%list (length h)
                = Some (CArr [])).
  { rewrite nth_error_app2 by lia. rewrite Nat.sub_diag. reflexivity. }
  assert (Hc' : nth_error (h ++ [CArr []; CObj (put_all d [("is", JRef (length h))])])%list (S (length h))
                = Some (CObj (put_all d [("is", JRef (length h))]))).
  { rewrite nth_error_app2 by lia. replace (S (length h) - length h) with 1 by lia. reflexivity. }
  rewrite (findTypes_shaped _ _ _ _ _ Hc' HP Hn').
  unfold array_receiver, array_elems. rewrite Hn'. cbn [filter app].
  destruct (nth_error_app_3 h (CArr [])
              (CObj (obj_set "is" (JRef (S (S (length h)))) (put_all d [("is", JRef (length h))])))
              (CArr [JStr "undefined"; JStr "null"])) as (_ & H1 & H2).
  do 2 eexists. split; [reflexivity |].
  exact (accepted_types_shaped _ _ _ _ _ H1 (assoc_obj_set_eq _ _ _) H2).
Qed.

(** [optional(r)] where [r] is a plain object whose own [is] is falsy
    (null, false, 0, the empty string) raises a TypeError: findTypes stops
    at the merged object, which has no [filter] method. *)
Theorem optional_falsy_is h p ps x :
  nth_error h p = Some (CObj ps) -> NoDup (map fst ps) ->
  assoc "is" ps = Some x -> truthy x = false -> assoc "filter" ps = None ->
  exists h' m, optional (JRef p) h = (h', Throw (TypeError m)).
Proof.
  intros Hp Hnd Hx Htx Hfl.
  rewrite optional_eq. cbv zeta.
  cbn [merge_descriptor truthy]. unfold own_props.
  rewrite (nth_error_ext _ _ _ _ Hp). cbn [res_bind merge_descriptor].
  set (P := put_all (put_all ps []) [("is", JRef (length h))]).
  assert (HP : assoc "is" P = Some x).
  { unfold P. rewrite assoc_put_all by (apply put_all_nodup; constructor).
    rewrite assoc_put_all by exact Hnd. rewrite Hx. reflexivity. }
  assert (HF : assoc "filter" P = None)
    by (unfold P; rewrite assoc_optional_props; [exact Hfl | exact Hnd | discriminate]).
  assert (Hc : nth_error (h ++ [CArr []; CObj P])%list (S (length h)) = Some (CObj P)).
  { rewrite nth_error_app2 by lia. replace (S (length h) - length h) with 1 by lia. reflexivity. }
  assert (Hft : findTypes (h ++ [CArr []; CObj P])%list (JRef (S (length h))) = Ok (JRef (S (length h)))).
  { unfold findTypes. cbn [findTypes_fuel]. unfold isArray, array_elems, get_prop.
    rewrite Hc. cbn [res_bind]. rewrite HP, Htx. reflexivity. }
  rewrite Hft. unfold array_receiver, array_elems, method_missing. rewrite Hc, HF.
  do 2 eexists. reflexivity.
Qed.

(** [required(r)] raises a TypeError, allocating nothing, when [r] is
    undefined or null (findTypes reads [r.is]), or a plain object without a
    truthy [is] (findTypes returns [r] itself, which has no [filter]
    method). *)
Theorem required_rejects h r :
  (is_nullish r = true \/
   exists p ps, r = JRef p /\ nth_error h p = Some (CObj ps) /\
     (forall x, assoc "is" ps = Some x -> truthy x = false) /\ assoc "filter" ps = None) ->
  exists m, required r h = (h, Throw (TypeError m)).
Proof.
  intros Hr. rewrite required_eq.
  destruct Hr as [Hn | (p & ps & -> & Hp & Hno & Hfl)].
  - destruct r; try discriminate; unfold findTypes;
      cbn [findTypes_fuel isArray array_elems get_prop res_bind]; eexists; reflexivity.
  - assert (Hft : findTypes h (JRef p) = Ok (JRef p)).
    { unfold findTypes. cbn [findTypes_fuel]. unfold isArray, array_elems, get_prop.
      rewrite Hp. cbn [res_bind].
      destruct (assoc "is" ps) as [x|] eqn:Hx; [rewrite (Hno x eq_refl) |]; reflexivity. }
    rewrite Hft. cbn [truthy]. unfold array_receiver, array_elems, method_missing.
    rewrite Hp, Hfl. eexists. reflexivity.
Qed.

(** [required(r)] where [r] is a falsy primitive other than undefined and
    null (false, 0, the empty string) accepts every type name but
    "undefined" and "null". *)
Theorem required_falsy_primitive h r :
  truthy r = false -> is_nullish r = false ->
  exists h' r', required r h = (h', Ok r') /\
    accepted_types h' r' = Some (map JStr ["array"; "boolean"; "function"; "number"; "object";
                                           "regexp"; "string"; "symbol"]).
Proof.
  intros Htr Hn. rewrite required_eq.
  assert (Hft : findTypes h r = Ok r) by (destruct r; try discriminate; reflexivity).
  rewrite Hft, Htr. cbv zeta.
  cbn [merge_descriptor]. rewrite Htr.
  destruct (nth_error_app_3 h (CArr (filter isTruthyType (map JStr VALID_TYPES))) (CObj [])
              (CObj [("is", JRef (length h))])) as (_ & _ & Hx).
  cbn [merge_descriptor truthy]. unfold own_props. rewrite Hx. cbn [res_bind merge_descriptor].
  set (d := put_all [("is", JRef (length h))] []).
  destruct (nth_error_app_3 h (CArr (filter isTruthyType (map JStr VALID_TYPES))) (CObj (put_all d []))
              (CObj [("is", JRef (length h))])) as (Hq & Hr & _).
  do 2 eexists. split; [reflexivity |].
  rewrite (accepted_types_shaped _ _ _ _ _ Hr eq_refl Hq). reflexivity.
Qed.

Lemma filter_idem {A} (f : A -> bool) l : filter f (filter f l) = filter f l.
Proof.
  induction l as [| x l IH]; cbn; [reflexivity |].
  destruct (f x) eqn:E; cbn; [rewrite E, IH | exact IH]; reflexivity.
Qed.

(** [required(optional(r))] accepts the same types as [required(r)]:
    [required] drops the "undefined" and "null" that [optional] added. *)
Theorem required_after_optional h p ps L :
  nth_error h p = Some (CObj ps) -> NoDup (map fst ps) -> accepted_types h (JRef p) = Some L ->
  exists h1 r1 h2 r2, optional (JRef p) h = (h1, Ok r1) /\ required r1 h1 = (h2, Ok r2) /\
    accepted_types h2 r2 = Some (filter isTruthyType L).
Proof.
  intros Hp Hnd Ha. unfold accepted_types in Ha.
  destruct (findTypes h (JRef p)) as [t|e] eqn:Ht; [| discriminate].
  destruct (optional_general _ _ _ _ _ Hp Hnd Ht Ha)
    as (h1 & p1 & ps1 & Ho & _ & _ & Hc1 & Hnd1 & _ & Ha1).
  unfold accepted_types in Ha1.
  destruct (findTypes h1 (JRef p1)) as [t1|e] eqn:Ht1; [| discriminate].
  destruct (required_general _ _ _ _ _ Hc1 Ht1 Ha1) as (h2 & p2 & ps2 & Hr & _ & _ & _ & _ & _ & Ha2).
  rewrite filter_truthy_idem in Ha2.
  exists h1, (JRef p1), h2, (JRef p2). auto.
Qed.

(** [optional(required(r))] accepts the same types as [optional(r)]. *)
Theorem optional_after_required h p ps L :
  nth_error h p = Some (CObj ps) -> accepted_types h (JRef p) = Some L ->
  exists h1 r1 h2 r2, required (JRef p) h = (h1, Ok r1) /\ optional r1 h1 = (h2, Ok r2) /\
    accepted_types h2 r2 = Some (filter isTruthyType L ++ [JStr "undefined"; JStr "null"])%list.
Proof.
  intros Hp Ha. unfold accepted_types in Ha.
  destruct (findTypes h (JRef p)) as [t|e] eqn:Ht; [| discriminate].
  destruct (required_general _ _ _ _ _ Hp Ht Ha) as (h1 & p1 & ps1 & Hr & _ & _ & Hc1 & Hnd1 & _ & Ha1).
  unfold accepted_types in Ha1.
  destruct (findTypes h1 (JRef p1)) as [t1|e] eqn:Ht1; [| discriminate].
  destruct (optional_general _ _ _ _ _ Hc1 Hnd1 Ht1 Ha1) as (h2 & p2 & ps2 & Ho & _ & _ & _ & _ & _ & Ha2).
  rewrite filter_idem in Ha2.
  exists h1, (JRef p1), h2, (JRef p2). auto.
Qed.

(** ** Instances of the further properties *)

Lemma validateOptions_falsy_options_witness :
  truthy JNull = false /\ nth_error heap_dflt_absent 0 = Some (CObj []) /\
  validateOptions example_call heap_dflt_absent JNull (JRef 2) []
  = validateOptions example_call heap_dflt_absent (JRef 0) (JRef 2) [].
Proof.
  split; [reflexivity | split; [reflexivity |]].
  apply (validateOptions_falsy_options example_call heap_dflt_absent JNull 0 (JRef 2) []);
    reflexivity.
Defined.

Lemma is_only_requirement_witness :
  nth_error heap_is_message 1 = Some (CObj [("is", JRef 0)]) /\
  array_elems heap_is_message (JRef 0) = Some [JStr "object"; JStr "number"] /\
  (~ In (JStr (getTypeOf heap_is_message JUndef)) [JStr "object"; JStr "number"] ->
   exists s, join ", " [JStr "object"; JStr "number"] = Ok s /\
   validate_key example_call heap_is_message JNull "foo" (JRef 1) [] []
   = ([], Throw (RequirementError "foo" (JStr (("The option " ++ dq ++ "foo" ++ dq ++ " ") ++
                                               "must be one of the following types: " ++ s))))).
Proof.
  split; [reflexivity | split; [reflexivity |]].
  refine (proj2 (is_only_requirement example_call heap_is_message JNull "foo" 1 [("is", JRef 0)]
                   (JRef 0) [JStr "object"; JStr "number"] false JUndef [] []
                   eq_refl eq_refl eq_refl eq_refl eq_refl eq_refl eq_refl _ eq_refl eq_refl)).
  intros t Ht. destruct Ht as [<- | [<- | []]]; cbn; tauto.
Defined.

Lemma result_values_have_accepted_type_witness :
  validateOptions example_call heap_typed_ok (JRef 4) (JRef 3) []
  = ([CalledOk "foo" (JNum 5)], Ok [("foo", JNum 5)]) /\
  In (JStr (getTypeOf heap_typed_ok (JNum 5))) [JStr "number"].
Proof.
  split; [reflexivity |].
  apply (result_values_have_accepted_type example_call heap_typed_ok (JRef 4) 3 [("foo", JRef 2)]
           [] [CalledOk "foo" (JNum 5)] [("foo", JNum 5)] "foo" (JRef 2) (JNum 5) (JRef 1)
           [JStr "number"]).
  - reflexivity.
  - apply nodup_single.
  - left. reflexivity.
  - reflexivity.
  - reflexivity.
  - reflexivity.
  - left. reflexivity.
Defined.

Lemma result_values_satisfy_predicate_witness :
  validateOptions example_call heap_typed_ok (JRef 4) (JRef 3) []
  = ([CalledOk "foo" (JNum 5)], Ok [("foo", JNum 5)]) /\
  ((exists b, example_call 4 (JNum 5) = Ok b /\ truthy b = true) \/
   (is_nullish (JNum 5) = true /\ check_types heap_typed_ok "foo" (JRef 2) (JNum 5) = Ok true)).
Proof.
  split; [reflexivity |].
  apply (result_values_satisfy_predicate example_call heap_typed_ok (JRef 4) 3 [("foo", JRef 2)]
           [] [CalledOk "foo" (JNum 5)] [("foo", JNum 5)] "foo" (JRef 2) (JNum 5) 0 4).
  - reflexivity.
  - apply nodup_single.
  - left. reflexivity.
  - reflexivity.
  - reflexivity.
  - reflexivity.
  - reflexivity.
Defined.

Lemma either_two_union_witness :
  findTypes heap_either (JRef 1) = Ok (JRef 0) /\ findTypes heap_either (JRef 3) = Ok (JRef 2) /\
  exists L, either [JRef 1; JRef 3] heap_either
            = ((heap_either ++ [CArr L])%list, Ok (JRef (length heap_either))) /\ NoDup L /\
    (forall x, In x L <-> In x [JStr "string"; JStr "undefined"; JStr "null"] \/
                          In x [JStr "number"; JStr "undefined"; JStr "null"]).
Proof.
  split; [reflexivity | split; [reflexivity |]].
  apply (either_two_union heap_either (JRef 1) (JRef 3) (JRef 0) (JRef 2)); try reflexivity.
  intros x Hx. destruct Hx as [<- | [<- | [<- | []]]]; reflexivity.
Defined.

Lemma either_one_argument_witness :
  findTypes heap_either (JRef 1) = Ok (JRef 0) /\
  exists L, either [JRef 1] heap_either
            = ((heap_either ++ [CArr L])%list, Ok (JRef (length heap_either))) /\ NoDup L /\
    (forall x, In x L <-> In x [JStr "string"; JStr "undefined"; JStr "null"]).
Proof.
  split; [reflexivity |].
  apply (either_one_argument heap_either (JRef 1) (JRef 0)); reflexivity.
Defined.

Lemma optional_accepted_types_witness :
  accepted_types heap_nested3 (JRef 3) = Some [JStr "string"] /\
  exists h' p' ps', optional (JRef 3) heap_nested3 = (h', Ok (JRef p')) /\
    length heap_nested3 <= p' /\ (exists ext, h' = (heap_nested3 ++ ext)%list) /\
    nth_error h' p' = Some (CObj ps') /\ (forall n, n <> "is" -> assoc n ps' = assoc n [("is", JRef 2)]) /\
    accepted_types h' (JRef p') = Some [JStr "string"; JStr "undefined"; JStr "null"].
Proof.
  split; [reflexivity |].
  apply (optional_accepted_types heap_nested3 3 [("is", JRef 2)] [JStr "string"]).
  - reflexivity.
  - apply nodup_single.
  - reflexivity.
Defined.

Lemma required_accepted_types_witness :
  accepted_types heap_either (JRef 1) = Some [JStr "string"; JStr "undefined"; JStr "null"] /\
  exists h' p' ps', required (JRef 1) heap_either = (h', Ok (JRef p')) /\
    length heap_either <= p' /\ (exists ext, h' = (heap_either ++ ext)%list) /\
    nth_error h' p' = Some (CObj ps') /\ (forall n, n <> "is" -> assoc n ps' = assoc n [("is", JRef 0)]) /\
    accepted_types h' (JRef p') = Some [JStr "string"].
Proof.
  split; [reflexivity |].
  apply (required_accepted_types heap_either 1 [("is", JRef 0)]
           [JStr "string"; JStr "undefined"; JStr "null"]).
  - reflexivity.
  - apply nodup_single.
  - reflexivity.
Defined.

Lemma optional_without_is_witness :
  nth_error heap_dflt_absent 1 = Some (CObj [("dflt", JNum 1)]) /\
  exists h' r', optional (JRef 1) heap_dflt_absent = (h', Ok r') /\
    accepted_types h' r' = Some [JStr "undefined"; JStr "null"].
Proof.
  split; [reflexivity |].
  apply (optional_without_is heap_dflt_absent (JRef 1)).
  right. exists 1, [("dflt", JNum 1)].
  split; [reflexivity | split; [reflexivity | split; [apply nodup_single | reflexivity]]].
Defined.

Lemma optional_falsy_is_witness :
  nth_error heap_is_null 0 = Some (CObj [("is", JNull)]) /\
  exists h' m, optional (JRef 0) heap_is_null = (h', Throw (TypeError m)).
Proof.
  split; [reflexivity |].
  apply (optional_falsy_is heap_is_null 0 [("is", JNull)] JNull).
  - reflexivity.
  - apply nodup_single.
  - reflexivity.
  - reflexivity.
  - reflexivity.
Defined.

Lemma required_rejects_witness :
  nth_error heap_dflt_absent 1 = Some (CObj [("dflt", JNum 1)]) /\
  exists m, required (JRef 1) heap_dflt_absent = (heap_dflt_absent, Throw (TypeError m)).
Proof.
  split; [reflexivity |].
  apply (required_rejects heap_dflt_absent (JRef 1)).
  right. exists 1, [("dflt", JNum 1)].
  split; [reflexivity | split; [reflexivity | split; [| reflexivity]]].
  intros x Hx. discriminate Hx.
Defined.

Lemma required_falsy_primitive_witness :
  truthy (JNum 0) = false /\ is_nullish (JNum 0) = false /\
  exists h' r', required (JNum 0) [] = (h', Ok r') /\
    accepted_types h' r' = Some (map JStr ["array"; "boolean"; "function"; "number"; "object";
                                           "regexp"; "string"; "symbol"]).
Proof.
  split; [reflexivity | split; [reflexivity |]].
  apply (required_falsy_primitive [] (JNum 0)); reflexivity.
Defined.

Lemma required_after_optional_witness :
  accepted_types heap_nested3 (JRef 3) = Some [JStr "string"] /\
  exists h1 r1 h2 r2, optional (JRef 3) heap_nested3 = (h1, Ok r1) /\ required r1 h1 = (h2, Ok r2) /\
    accepted_types h2 r2 = Some [JStr "string"].
Proof.
  split; [reflexivity |].
  apply (required_after_optional heap_nested3 3 [("is", JRef 2)] [JStr "string"]).
  - reflexivity.
  - apply nodup_single.
  - reflexivity.
Defined.

Lemma optional_after_required_witness :
  accepted_types heap_nested3 (JRef 3) = Some [JStr "string"] /\
  exists h1 r1 h2 r2, required (JRef 3) heap_nested3 = (h1, Ok r1) /\ optional r1 h1 = (h2, Ok r2) /\
    accepted_types h2 r2 = Some [JStr "string"; JStr "undefined"; JStr "null"].
Proof.
  split; [reflexivity |].
  apply (optional_after_required heap_nested3 3 [("is", JRef 2)] [JStr "string"]); reflexivity.
Defined.

Lemma merge_descriptor_cons h x rest acc :
  merge_arg h x ->
  merge_descriptor h (x :: rest) acc =
  merge_descriptor h rest (match x with
                           | JRef l => match nth_error h l with
                                       | Some (CObj qs) => put_all qs acc
                                       | _ => acc
                                       end
                           | _ => acc
                           end).
Proof.
  intros [Hf | (l & qs & -> & Hl & _)].
  - cbn [merge_descriptor]. rewrite Hf. destruct x; try reflexivity. discriminate.
  - cbn [merge_descriptor truthy own_props]. rewrite Hl. reflexivity.
Qed.

Lemma merge_arg_step h x acc n :
  merge_arg h x -> NoDup (map fst acc) ->
  let acc' := match x with
              | JRef l => match nth_error h l with Some (CObj qs) => put_all qs acc | _ => acc end
              | _ => acc
              end in
  NoDup (map fst acc') /\
  assoc n acc' = match own_value h x n with Some v => Some v | None => assoc n acc end.
Proof.
  intros [Hf | (l & qs & -> & Hl & Hq)] Hnd; cbv zeta.
  - destruct x; try (split; [exact Hnd | reflexivity]). discriminate.
  - cbn [own_value]. rewrite Hl. split; [apply put_all_nodup, Hnd |].
    apply assoc_put_all, Hq.
Qed.

Lemma merge_descriptor_spec h props acc :
  Forall (merge_arg h) props -> NoDup (map fst acc) ->
  exists d, merge_descriptor h props acc = Ok d /\ NoDup (map fst d) /\
    (forall n, (forall y, In y props -> own_value h y n = None) -> assoc n d = assoc n acc) /\
    (forall n pre x post v, props = (pre ++ x :: post)%list -> own_value h x n = Some v ->
       (forall y, In y post -> own_value h y n = None) -> assoc n d = Some v).
Proof.
  revert acc. induction props as [| x rest IH]; intros acc Hall Hnd.
  - exists acc. split; [reflexivity |]. split; [exact Hnd |]. split; [reflexivity |].
    intros n [| y pre] x post v E; discriminate E.
  - inversion Hall as [| ? ? Hx Hrest]; subst.
    rewrite (merge_descriptor_cons _ _ _ _ Hx).
    set (acc' := match x with
                 | JRef l => match nth_error h l with Some (CObj qs) => put_all qs acc | _ => acc end
                 | _ => acc
                 end).
    assert (Hstep : forall n, NoDup (map fst acc') /\
              assoc n acc' = match own_value h x n with Some v => Some v | None => assoc n acc end)
      by (intros n; exact (merge_arg_step h x acc n Hx Hnd)).
    destruct (IH acc' Hrest (proj1 (Hstep EmptyString))) as (d & Hd & Hndd & Hnone & Hlast).
    exists d. split; [exact Hd |]. split; [exact Hndd |]. split.
    + intros n Hn. rewrite Hnone by (intros y Hy; apply Hn; right; exact Hy).
      rewrite (proj2 (Hstep n)), (Hn x (or_introl eq_refl)). reflexivity.
    + intros n [| y pre] x' post v E Hv Hpost.
      * injection E as <- <-. rewrite Hnone by exact Hpost.
        rewrite (proj2 (Hstep n)), Hv. reflexivity.
      * injection E as <- E. exact (Hlast n pre x' post v E Hv Hpost).
Qed.

(** [merge(source, ...properties)] on a plain object [source], with
    arguments that are falsy or plain objects, changes only the cell of
    [source] and returns [source] itself. A property of [source] stays as it
    was unless an argument has it; otherwise it takes the value of the last
    (rightmost) argument that has it. *)
Theorem merge_precedence h src ps props :
  nth_error h src = Some (CObj ps) -> Forall (merge_arg h) props ->
  exists ps', merge src props h = (set_nth src (CObj ps') h, Ok (JRef src)) /\
    (forall n, (forall y, In y props -> own_value h y n = None) -> assoc n ps' = assoc n ps) /\
    (forall n pre x post v, props = (pre ++ x :: post)%list -> own_value h x n = Some v ->
       (forall y, In y post -> own_value h y n = None) -> assoc n ps' = Some v).
Proof.
  intros Hs Hall.
  destruct (merge_descriptor_spec h props [] Hall (NoDup_nil _)) as (d & Hd & Hnd & Hnone & Hlast).
  exists (put_all d ps). unfold merge, bind, get_heap, lift. rewrite Hd, Hs.
  split; [reflexivity |]. split.
  - intros n Hn. rewrite assoc_put_all by exact Hnd. rewrite (Hnone n Hn). reflexivity.
  - intros n pre x post v E Hv Hpost. rewrite assoc_put_all by exact Hnd.
    rewrite (Hlast n pre x post v E Hv Hpost). reflexivity.
Qed.

Lemma merge_precedence_witness :
  merge 0 [JRef 1; JNull; JRef 2] heap_merge
  = (set_nth 0 (CObj [("bar", JNum 1); ("a", JStr "a"); ("foo", JStr "bar"); ("name", JStr "b")])
       heap_merge, Ok (JRef 0)) /\
  exists ps', merge 0 [JRef 1; JNull; JRef 2] heap_merge = (set_nth 0 (CObj ps') heap_merge, Ok (JRef 0)) /\
    (forall n, (forall y, In y [JRef 1; JNull; JRef 2] -> own_value heap_merge y n = None) ->
       assoc n ps' = assoc n [("bar", JNum 0); ("a", JStr "a")]) /\
    (forall n pre x post v, [JRef 1; JNull; JRef 2] = (pre ++ x :: post)%list ->
       own_value heap_merge x n = Some v ->
       (forall y, In y post -> own_value heap_merge y n = None) -> assoc n ps' = Some v).
Proof.
  split; [reflexivity |].
  apply (merge_precedence heap_merge 0 [("bar", JNum 0); ("a", JStr "a")]); [reflexivity |].
  apply Forall_cons.
  { right. exists 1, [("foo", JStr "foo"); ("bar", JNum 1)].
    split; [reflexivity | split; [reflexivity |]].
    constructor; [intros [H | []]; discriminate H | constructor; [intros [] | constructor]]. }
  apply Forall_cons; [left; reflexivity |].
  apply Forall_cons; [| apply Forall_nil].
  right. exists 2, [("foo", JStr "bar"); ("name", JStr "b")].
  split; [reflexivity | split; [reflexivity |]].
  constructor; [intros [H | []]; discriminate H | constructor; [intros [] | constructor]].
Defined.
